(** * EcoIndex: the spectral-index-to-score pipeline

    A shallow embedding of the scoring core of the EcoIndex browser
    application: the spectral index calculator ([spectral-indices.js]), the
    category tables of the greenspace and water-quality analyzers, the
    eco-score and percentile calculator ([eco-percentile.js]: version 2.1,
    and the greenspace estimate of the unversioned copy) and the rule-based
    trend projector (class [SimpleAIPredictor]) with its [predictions] map.
    The later sections cover the rest of these classes that is arithmetic:
    the other indices, the batch pass [processTracts], the action filter
    [getWorstPredictedTracts], the estimates of the two analyzers and the
    index conversions of [EEService].

    Numbers.  A JavaScript number is modelled by an exact rational ([Q]):
    the theorems on [Q] are about finite values and exact arithmetic.  The
    percentile is the one result that turns on the rounding of a quotient,
    so [calculatePercentile] is given a second time on the kernel's
    binary64 numbers (module [Binary64]), and its rank formula is proved
    there.  Two remarks evaluate literal expressions on binary64, to show
    where rounding is visible.  Where the source divides without a guard,
    the quotient is a [JS.number], which adds the two infinities and NaN.
    [Math.random()] is an explicit argument [random] with
    [0 <= random < 1]. *)

From Stdlib Require Import QArith Qcanon Qround Qminmax Lqa Lia ZArith List Bool.
From Stdlib Require Import Orders Sorting.Mergesort Sorting.Permutation.
From Stdlib Require Import Floats.PrimFloat.
From Stdlib Require Floats.SpecFloat Floats.FloatOps Floats.FloatAxioms.
From Stdlib Require Numbers.Cyclic.Int63.Uint63.
From Stdlib Require Import String Sorting.Sorted.
From stdpp Require Import gmap.
Import ListNotations.

#[local] Set Warnings "-inexact-float".
#[local] Open Scope Q_scope.

(* ===================================================================== *)
(** ** JavaScript numeric primitives *)
(* ===================================================================== *)

Declare Scope js_scope.
Delimit Scope js_scope with js.

Module JS.

(** Comparison operators on finite numbers. *)
Definition le (a b : Q) : bool := Qle_bool a b.
Definition lt (a b : Q) : bool := negb (Qle_bool b a).
Definition ge (a b : Q) : bool := le b a.
Definition gt (a b : Q) : bool := lt b a.
(** [a === b] on numbers. *)
Definition strict_eq (a b : Q) : bool := Qeq_bool a b.

Definition Math_max (a b : Q) : Q := if lt a b then b else a.
Definition Math_min (a b : Q) : Q := if lt b a then b else a.
Definition Math_abs (a : Q) : Q := if lt a 0 then - a else a.
(** [Math.round] rounds to the nearest integer, ties towards +Infinity. *)
Definition Math_round (a : Q) : Q := inject_Z (Qfloor (a + 0.5)).

(** The value of an unguarded division [a / b]; a zero divisor is taken
    to be +0, the zero every literal and every difference yields. *)
Inductive number : Type :=
| Finite (q : Q)
| PosInfinity
| NegInfinity
| NaN.

Definition div (a b : Q) : number :=
  if strict_eq b 0 then
    if lt 0 a then PosInfinity
    else if lt a 0 then NegInfinity
    else NaN
  else Finite (a / b).

(** [x > c] for a quotient [x] and a finite [c]: false on NaN. *)
Definition number_gt (x : number) (c : Q) : bool :=
  match x with
  | Finite q => gt q c
  | PosInfinity => true
  | NegInfinity | NaN => false
  end.

(** [x <= c] for a quotient [x] and a finite [c]: false on NaN. *)
Definition number_le (x : number) (c : Q) : bool :=
  match x with
  | Finite q => le q c
  | NegInfinity => true
  | PosInfinity | NaN => false
  end.

(** [x.toFixed(4)] for [|x| < 10^21]: the sign and the integer [n] with
    [n / 10^4] nearest to [|x|], the larger one on a tie; two numbers
    print alike exactly when these agree. *)
Definition toFixed4 (x : Q) : bool * Z :=
  (lt x 0, Qfloor (Math_abs x * 10000 + 0.5)).

(** [Math.floor] *)
Definition Math_floor (a : Q) : Q := inject_Z (Qfloor a).

End JS.

Notation "a <? b" := (JS.lt a b) : js_scope.
Notation "a <=? b" := (JS.le a b) : js_scope.
Notation "a >? b" := (JS.gt a b) : js_scope.
Notation "a >=? b" := (JS.ge a b) : js_scope.
Notation "a === b" := (JS.strict_eq a b) (at level 70, no associativity) : js_scope.
#[local] Open Scope js_scope.

(** A coordinate box with open sides:
    [lat > s && lat < n && lon > w && lon < e]. *)
Definition inBox (lat lon s n w e : Q) : bool :=
  (lat >? s) && (lat <? n) && (lon >? w) && (lon <? e).

(* ===================================================================== *)
(** ** spectral-indices.js: class SpectralIndicesCalculator *)
(* ===================================================================== *)

Module SpectralIndicesCalculator.

Definition calculateNDVI (red nir : Q) : Q :=
  if nir + red === 0 then 0
  else
    let ndvi := (nir - red) / (nir + red) in
    JS.Math_max (-1) (JS.Math_min 1 ndvi).

Definition calculateNDWI (green nir : Q) : Q :=
  if green + nir === 0 then 0
  else
    let ndwi := (green - nir) / (green + nir) in
    JS.Math_max (-1) (JS.Math_min 1 ndwi).

Definition ndviToGreenspace (ndvi : Q) : Q :=
  if ndvi <? 0 then 0
  else if ndvi <? 0.3 then ndvi * 50
  else if ndvi <? 0.6 then 15 + (ndvi - 0.3) * 100
  else 45 + (ndvi - 0.6) * 137.5.

Definition ndwiToWaterQuality (ndwi : Q) : Q :=
  let baseQuality := (ndwi + 1) * 50 in
  if ndwi >? 0.5 then JS.Math_min 100 (baseQuality + 20)
  else if ndwi >? 0 then baseQuality
  else JS.Math_max 0 (baseQuality - 20).

Definition isUrban (lat lon : Q) : bool :=
  inBox lat lon 40 42 (-74) (-73)
  || inBox lat lon 34 35 (-119) (-118)
  || inBox lat lon 41 42 (-88) (-87).

Definition isCoastal (lat lon : Q) : bool :=
  (JS.Math_abs (lon + 80) <? 5)
  || (JS.Math_abs (lon + 122) <? 5)
  || inBox lat lon 25 31 (-85) (-80).

(** The same function on binary64 values, for the literal example.
    With [-1] and [1] as the fixed arguments no tie between zeros of
    different sign can arise in [Math.max] and [Math.min]. *)
Definition Math_max_binary64 (a b : float) : float :=
  if (is_nan a || is_nan b)%bool then nan
  else if PrimFloat.ltb a b then b else a.
Definition Math_min_binary64 (a b : float) : float :=
  if (is_nan a || is_nan b)%bool then nan
  else if PrimFloat.ltb b a then b else a.
Definition calculateNDVI_binary64 (red nir : float) : float :=
  if PrimFloat.eqb (nir + red)%float 0%float then 0%float
  else
    let ndvi := ((nir - red) / (nir + red))%float in
    Math_max_binary64 (-1)%float (Math_min_binary64 1%float ndvi).


Definition calculateEVI (red nir blue : Q) : Q :=
  let denominator := nir + 6 * red - 7.5 * blue + 1 in
  if denominator === 0 then 0
  else
    let evi := 2.5 * ((nir - red) / denominator) in
    JS.Math_max (-1) (JS.Math_min 1 evi).

Definition calculateMNDWI (green swir : Q) : Q :=
  if green + swir === 0 then 0
  else
    let mndwi := (green - swir) / (green + swir) in
    JS.Math_max (-1) (JS.Math_min 1 mndwi).

(** [L] is the third argument; a call that omits it passes 0.5. *)
Definition calculateSAVI (red nir L : Q) : Q :=
  let denominator := nir + red + L in
  if denominator === 0 then 0
  else
    let savi := ((nir - red) / denominator) * (1 + L) in
    JS.Math_max (-1) (JS.Math_min 1 savi).

Definition hasVegetation (lat lon : Q) : bool :=
  inBox lat lon 45 50 (-125) (-100)
  || inBox lat lon 30 36 (-90) (-75).

(** The numeric bands of a Sentinel-2 sample, on the 0-10000 scale. *)
Record Bands : Type := mkBands {
  B2 : Q;
  B3 : Q;
  B4 : Q;
  B8 : Q;
  B11 : Q
}.

Record Indices : Type := mkIndices {
  ndvi : Q;
  ndwi : Q;
  mndwi : Q;
  evi : Q;
  savi : Q
}.

(** [calculateAllIndices] from the point where the bands have been
    fetched: the five indices of the sample. *)
Definition calculateAllIndices (bands : Bands) : Indices :=
  let red := B4 bands / 10000 in
  let green := B3 bands / 10000 in
  let blue := B2 bands / 10000 in
  let nir := B8 bands / 10000 in
  let swir := B11 bands / 10000 in
  {| ndvi := calculateNDVI red nir;
     ndwi := calculateNDWI green nir;
     mndwi := calculateMNDWI green swir;
     evi := calculateEVI red nir blue;
     savi := calculateSAVI red nir 0.5 |}.

End SpectralIndicesCalculator.

(* ===================================================================== *)
(** ** The category tables of the two analyzers *)
(* ===================================================================== *)

Inductive Category : Type :=
| Excellent
| Good
| Moderate
| Poor
| VeryPoor.

(** class GreenspaceAnalyzer *)
Module GreenspaceAnalyzer.

Definition getGreenspaceCategory (coverage : Q) : Category :=
  if coverage >=? 60 then Excellent
  else if coverage >=? 40 then Good
  else if coverage >=? 20 then Moderate
  else if coverage >=? 10 then Poor
  else VeryPoor.


Definition ndviToCoverage (ndvi : Q) : Q :=
  if ndvi <? 0 then 0
  else if ndvi <? 0.3 then ndvi * 50
  else if ndvi <? 0.6 then 15 + (ndvi - 0.3) * 100
  else 45 + (ndvi - 0.6) * 137.5.

Definition isUrbanArea (lat lon : Q) : bool :=
  inBox lat lon 40 42 (-74) (-73)
  || inBox lat lon 34 35 (-119) (-118)
  || inBox lat lon 41 42 (-88) (-87).

(** [random] is the value of the one call to [Math.random()]. *)
Definition estimateParks (lat lon random : Q) : Q :=
  if isUrbanArea lat lon then JS.Math_floor (random * 5) + 2
  else JS.Math_floor (random * 3) + 1.

Definition estimateTreeCoverage (totalCoverage random : Q) : Q :=
  JS.Math_round (totalCoverage * (0.6 + random * 0.2)).

Definition getRegionalGreenspace (lat lon : Q) : Q :=
  if inBox lat lon 45 50 (-125) (-120) then 0.3
  else if inBox lat lon 32 40 (-120) (-110) then -0.2
  else if inBox lat lon 30 36 (-90) (-75) then 0.1
  else 0.

Inductive CoverageTrend : Type :=
| coverage_increasing
| coverage_decreasing
| coverage_stable.

(** An entry of a location's history; its [date] string plays no part in
    the trend. *)
Record HistoryEntry : Type := mkHistoryEntry {
  coverage : Q;
  ndvi : Q
}.

(** The key [`${lat.toFixed(4)},${lon.toFixed(4)}`] of [historicalData]. *)
Definition locationKey (lat lon : Q) : (bool * Z) * (bool * Z) :=
  (JS.toFixed4 lat, JS.toFixed4 lon).

(** [history.slice(-6)]: the last six entries, or all of them. *)
Definition slice_last6 (history : list HistoryEntry) : list HistoryEntry :=
  skipn (length history - 6) history.

Definition calculateTrend
    (historicalData : gmap ((bool * Z) * (bool * Z)) (list HistoryEntry))
    (lat lon : Q) : CoverageTrend :=
  let history :=
    match historicalData !! locationKey lat lon with
    | Some h => h
    | None => []
    end in
  if Nat.ltb (length history) 2 then coverage_stable
  else
    let recent := slice_last6 history in
    match recent with
    | [] => coverage_stable
    | first :: _ =>
        let trend := coverage (List.last recent first) - coverage first in
        if trend >? 3 then coverage_increasing
        else if trend <? -3 then coverage_decreasing
        else coverage_stable
    end.

End GreenspaceAnalyzer.

(** class WaterQualityAnalyzer *)
Module WaterQualityAnalyzer.

Definition getQualityCategory (index : Q) : Category :=
  if index >=? 80 then Excellent
  else if index >=? 60 then Good
  else if index >=? 40 then Moderate
  else if index >=? 20 then Poor
  else VeryPoor.


Record ColorAnalysis : Type := mkColorAnalysis {
  color : string;
  description : string
}.

Definition analyzeColor (qualityIndex : Q) : ColorAnalysis :=
  if qualityIndex >=? 80 then
    mkColorAnalysis "#0066cc" "Clear Blue - Excellent"
  else if qualityIndex >=? 60 then
    mkColorAnalysis "#0099ff" "Light Blue - Good"
  else if qualityIndex >=? 40 then
    mkColorAnalysis "#00cc99" "Green-Tinted - Moderate"
  else if qualityIndex >=? 20 then
    mkColorAnalysis "#996633" "Brown - Poor"
  else
    mkColorAnalysis "#663300" "Dark Brown - Very Poor".

Record Pollutants : Type := mkPollutants {
  nutrients : Q;
  sediments : Q;
  organic : Q;
  chemicals : Q
}.

Definition estimatePollutants (qualityIndex : Q) : Pollutants :=
  {| nutrients := JS.Math_round ((100 - qualityIndex) * 0.3);
     sediments := JS.Math_round ((100 - qualityIndex) * 0.4);
     organic := JS.Math_round ((100 - qualityIndex) * 0.2);
     chemicals := JS.Math_round ((100 - qualityIndex) * 0.1) |}.

Definition isUrbanArea (lat lon : Q) : bool :=
  inBox lat lon 40 42 (-74) (-73)
  || inBox lat lon 34 35 (-119) (-118)
  || inBox lat lon 41 42 (-88) (-87).

(** [coasts.some(...)] over the one box of [coasts]. *)
Definition isCoastalArea (lat lon : Q) : bool :=
  existsb
    (fun coast : (Q * Q) * (Q * Q) =>
       (lat >=? fst (fst coast)) && (lat <=? snd (fst coast))
       && (lon >=? fst (snd coast)) && (lon <=? snd (snd coast))
       && ((JS.Math_abs (lon + 95) <? 5) || (JS.Math_abs (lon + 80) <? 5)))
    [((25, 50), (-125, -66))].

End WaterQualityAnalyzer.

(* ===================================================================== *)
(** ** eco-percentile.js (version 2.1): class EcoPercentileCalculator *)
(* ===================================================================== *)

(** [Array.prototype.sort((a, b) => a - b)]: an ascending stable merge
    sort; the comparator puts [a] first when [a - b <= 0]. *)
Module ScoreOrder <: TotalLeBool.
Definition t := Q.
Definition leb (a b : Q) : bool := (a - b <=? 0).
Lemma leb_total : forall a b, leb a b = true \/ leb b a = true.
Proof.
  intros a b. unfold leb, JS.le.
  destruct (Qlt_le_dec 0 (a - b)) as [H | H].
  - right. apply Qle_bool_iff. lra.
  - left. apply Qle_bool_iff. exact H.
Qed.
End ScoreOrder.

Module ScoreSort := Sort ScoreOrder.

Module EcoPercentileCalculator.

Definition calculateEcoScore (waterQuality greenspace : Q) : Q :=
  let score := (waterQuality * 0.5) + (greenspace * 0.5) in
  JS.Math_max 0 (JS.Math_min 100 score).

Definition calculatePercentile (score : Q) (allScores : list Q) : Q :=
  if Nat.eqb (length allScores) 0 then 50
  else
    let sorted := ScoreSort.sort allScores in
    let rank := length (List.filter (fun s => s <=? score) sorted) in
    let percentile :=
      (inject_Z (Z.of_nat rank) / inject_Z (Z.of_nat (length sorted))) * 100 in
    JS.Math_round percentile.

Definition isUrbanArea (lat lon : Q) : bool :=
  inBox lat lon 40 42 (-74) (-73)
  || inBox lat lon 34 35 (-119) (-118)
  || inBox lat lon 41 42 (-88) (-87)
  || inBox lat lon 29 30 (-96) (-95).

Definition isCoastalArea (lat lon : Q) : bool :=
  (JS.Math_abs (lon + 80) <? 5)
  || (JS.Math_abs (lon + 122) <? 5)
  || inBox lat lon 25 31 (-85) (-80).

(** [random] is the value of the one call to [Math.random()]. *)
Definition estimateWaterQualitySync (lat lon random : Q) : Q :=
  let quality := 60 in
  let quality := if isUrbanArea lat lon then quality - 15 else quality in
  let quality := if isCoastalArea lat lon then quality + 10 else quality in
  let quality :=
    if inBox lat lon 40 50 (-125) (-100) then quality + 5 else quality in
  let quality := quality + (random - 0.5) * 20 in
  JS.Math_max 0 (JS.Math_min 100 quality).

(** [random] is the value of the call to [Math.random()] that the three
    regional branches make; outside them no random number is drawn. *)
Definition estimateGreenspaceSync (lat lon random : Q) : Q :=
  let coverage :=
    if inBox lat lon 45 50 (-125) (-100) then 70 + (random - 0.5) * 20
    else if inBox lat lon 32 40 (-120) (-110) then 15 + (random - 0.5) * 10
    else if inBox lat lon 30 36 (-90) (-75) then 50 + (random - 0.5) * 20
    else 40 in
  let coverage := if isUrbanArea lat lon then coverage - 20 else coverage in
  JS.Math_max 0 (JS.Math_min 100 coverage).


Definition getWaterColor (quality : Q) : string :=
  if quality >=? 80 then "#003366"
  else if quality >=? 60 then "#0066cc"
  else if quality >=? 40 then "#3399ff"
  else if quality >=? 20 then "#6699cc"
  else "#cc6666".

Definition getGreenspaceColor (coverage : Q) : string :=
  if coverage >=? 80 then "#004d00"
  else if coverage >=? 60 then "#006600"
  else if coverage >=? 40 then "#339933"
  else if coverage >=? 20 then "#66cc66"
  else "#99ff99".

(** The fields of [tract.properties] that the scoring reads. *)
Record Location : Type := mkLocation {
  lat : Q;
  lon : Q
}.

(** [tract.properties] once scored; [ecoPercentile] stays [null] until
    the second pass of [processTracts]. *)
Record ScoredTract : Type := mkScoredTract {
  location : Location;
  waterQuality : Q;
  greenspace : Q;
  ecoScore : Q;
  waterColor : string;
  greenspaceColor : string;
  ecoPercentile : option Q
}.

(** How many random numbers [estimateGreenspaceSync] draws: one inside a
    regional box, none elsewhere. *)
Definition greenspaceDraws (lat lon : Q) : nat :=
  if inBox lat lon 45 50 (-125) (-100)
     || inBox lat lon 32 40 (-120) (-110)
     || inBox lat lon 30 36 (-90) (-75)
  then 1 else 0.

(** The callback of [tracts.map] in [processTracts]; [random n] is the
    value of the [n]-th call to [Math.random()], and the count of calls
    made so far is threaded through. *)
Definition scoreTract (random : nat -> Q) (n : nat) (tract : Location)
    : ScoredTract * nat :=
  let waterQuality :=
    estimateWaterQualitySync (lat tract) (lon tract) (random n) in
  let greenspace :=
    estimateGreenspaceSync (lat tract) (lon tract) (random (S n)) in
  let ecoScore := calculateEcoScore waterQuality greenspace in
  ({| location := tract;
      waterQuality := waterQuality;
      greenspace := greenspace;
      ecoScore := ecoScore;
      waterColor := getWaterColor waterQuality;
      greenspaceColor := getGreenspaceColor greenspace;
      ecoPercentile := None |},
   (S n + greenspaceDraws (lat tract) (lon tract))%nat).

Fixpoint scoreTracts (random : nat -> Q) (n : nat) (tracts : list Location)
    : list ScoredTract * nat :=
  match tracts with
  | [] => ([], n)
  | tract :: rest =>
      let '(scored, n') := scoreTract random n tract in
      let '(others, n'') := scoreTracts random n' rest in
      (scored :: others, n'')
  end.

Definition setPercentile (allScores : list Q) (tract : ScoredTract) : ScoredTract :=
  {| location := location tract;
     waterQuality := waterQuality tract;
     greenspace := greenspace tract;
     ecoScore := ecoScore tract;
     waterColor := waterColor tract;
     greenspaceColor := greenspaceColor tract;
     ecoPercentile := Some (calculatePercentile (ecoScore tract) allScores) |}.

(** [processTracts]: the tracts as left by the two passes, the new value
    of [this.allScores], and the count of random numbers drawn. *)
Definition processTracts (random : nat -> Q) (n : nat) (tracts : list Location)
    : list ScoredTract * list Q * nat :=
  let '(scored, n') := scoreTracts random n tracts in
  let allScores := map ecoScore scored in
  (map (setPercentile allScores) scored, allScores, n').

End EcoPercentileCalculator.

(* ===================================================================== *)
(** ** [calculatePercentile] on binary64 *)
(* ===================================================================== *)

(** The percentile is the one result of the class that depends on how a
    quotient is rounded: [(rank / sorted.length) * 100] is rounded twice
    before [Math.round] sees it.  This module repeats [calculatePercentile]
    on the kernel's binary64 numbers, with the source's order of
    operations. *)
Module Binary64.

(** The number a count is: [.length] is below 2^32, and every integer
    below 2^53 is a binary64 value. *)
Definition of_nat (n : nat) : float :=
  PrimFloat.of_uint63 (Uint63.of_Z (Z.of_nat n)).

(** The rational a finite binary64 number stands for; [None] on the
    infinities and NaN. *)
Definition value (x : float) : option Q :=
  match FloatOps.Prim2SF x with
  | SpecFloat.S754_zero _ => Some 0
  | SpecFloat.S754_finite sign m e =>
      Some ((if sign then - inject_Z (Zpos m) else inject_Z (Zpos m)) * 2 ^ e)
  | SpecFloat.S754_infinity _ | SpecFloat.S754_nan => None
  end.

(** [Math.round] of a finite number: the nearest integer to its value,
    the larger one on a tie.  The infinities and NaN, which [Math.round]
    returns unchanged, are [None]. *)
Definition Math_round (x : float) : option Q :=
  option_map JS.Math_round (value x).

(** [sort((a, b) => a - b)] as a stable insertion sort: [a] stays in
    front of [b] unless [a - b > 0]. *)
Fixpoint insertAscending (x : float) (l : list float) : list float :=
  match l with
  | [] => [x]
  | y :: rest =>
      if PrimFloat.ltb 0 (x - y) then y :: insertAscending x rest
      else x :: y :: rest
  end.

Definition sortAscending (l : list float) : list float :=
  fold_right insertAscending [] l.

Definition calculatePercentile (score : float) (allScores : list float)
    : option Q :=
  if Nat.eqb (length allScores) 0 then Some 50
  else
    let sorted := sortAscending allScores in
    let rank := length (List.filter (fun s => PrimFloat.leb s score) sorted) in
    let percentile := (of_nat rank / of_nat (length sorted) * 100)%float in
    Math_round percentile.

End Binary64.

(** The second, unversioned copy of the class in [eco-percentile.js]: its
    scoring functions are those of version 2.1 except for the greenspace
    estimate, which applies the urban cut first, adds the regional terms
    and always draws the jitter. *)
Module EcoPercentileCalculatorUnversioned.

Definition estimateGreenspaceSync (lat lon random : Q) : Q :=
  let coverage := 40 in
  let coverage :=
    if EcoPercentileCalculator.isUrbanArea lat lon then coverage - 20
    else coverage in
  let coverage :=
    if inBox lat lon 45 50 (-125) (-100) then coverage + 30
    else if inBox lat lon 30 36 (-90) (-75) then coverage + 10
    else if inBox lat lon 32 40 (-120) (-110) then coverage - 15
    else coverage in
  let coverage := coverage + (random - 0.5) * 15 in
  JS.Math_max 0 (JS.Math_min 100 coverage).

End EcoPercentileCalculatorUnversioned.

(* ===================================================================== *)
(** ** class SimpleAIPredictor: the rule-based trend projector *)
(* ===================================================================== *)

Module SimpleAIPredictor.

Inductive Trend : Type :=
| declining
| stable
| at_risk
| slight_decline.

Inductive RiskLevel : Type :=
| critical
| high
| moderate
| low.

(** [tract.properties]; a field that was never set is [None]. *)
Record Properties : Type := mkProperties {
  lat : Q;
  lon : Q;
  ecoScore : option Q;
  waterQuality : option Q;
  greenspace : option Q
}.

Record Prediction : Type := mkPrediction {
  currentScore : Q;
  predictedScore : Q;
  yearsAhead : Q;
  annualDecline : Q;
  riskLevel : RiskLevel;
  needsAction : bool;
  trend : Trend;
  regionalFactor : Q;
  urbanPressure : Q
}.

(** [x || d] on a field that holds a number or is undefined: [0] is
    falsy, so it is replaced by the default as well. *)
Definition or_default (x : option Q) (d : Q) : Q :=
  match x with
  | Some q => if q === 0 then d else q
  | None => d
  end.

Definition isUrbanArea (lat lon : Q) : bool :=
  inBox lat lon 40 42 (-74) (-73)
  || inBox lat lon 34 35 (-119) (-118)
  || inBox lat lon 41 42 (-88) (-87)
  || inBox lat lon 29 30 (-96) (-95)
  || inBox lat lon 37 38 (-123) (-122).

Definition isSuburban (lat lon : Q) : bool :=
  inBox lat lon 39 41 (-75) (-73)
  || inBox lat lon 33 35 (-118) (-117)
  || inBox lat lon 40 42 (-89) (-87).

Definition isProtectedArea (lat lon : Q) : bool :=
  inBox lat lon 44 50 (-125) (-110)
  || inBox lat lon 36 38 (-120) (-115)
  || inBox lat lon 35 37 (-84) (-82).

Definition isCoastal (lat lon : Q) : bool :=
  (JS.Math_abs (lon + 80) <? 5)
  || (JS.Math_abs (lon + 122) <? 5)
  || inBox lat lon 25 31 (-85) (-80).

Definition calculateTrend (tract : Properties) : Trend :=
  let lat := lat tract in
  let lon := lon tract in
  if isUrbanArea lat lon then declining
  else if isProtectedArea lat lon then stable
  else if isCoastal lat lon then at_risk
  else slight_decline.

Definition getRegionalTrendFactor (tract : Properties) : Q :=
  let lat := lat tract in
  let lon := lon tract in
  if inBox lat lon 34 36 (-119) (-117) then -0.8
  else if inBox lat lon 40 42 (-74) (-73) then -0.7
  else if inBox lat lon 45 50 (-125) (-100) then -0.2
  else -0.5.

Definition getUrbanPressureFactor (tract : Properties) : Q :=
  let lat := lat tract in
  let lon := lon tract in
  if isUrbanArea lat lon then -1.2
  else if isSuburban lat lon then -0.8
  else -0.3.

Definition calculateAnnualDecline
    (trend : Trend) (regionalFactor urbanPressure : Q) : Q :=
  let baseDecline :=
    match trend with
    | declining => -1.5
    | at_risk => -1.0
    | slight_decline => -0.5
    | stable => -0.1
    end in
  baseDecline + regionalFactor + urbanPressure.

Definition calculateRiskLevel
    (currentScore predictedScore yearsAhead : Q) : RiskLevel :=
  let decline := currentScore - predictedScore in
  let declineRate := JS.div decline yearsAhead in
  if (predictedScore <? 30) || JS.number_gt declineRate 2 then critical
  else if (predictedScore <? 50) || JS.number_gt declineRate 1.5 then high
  else if JS.number_gt declineRate 0.5 then moderate
  else low.

Definition risk_eqb (a b : RiskLevel) : bool :=
  match a, b with
  | critical, critical | high, high | moderate, moderate | low, low => true
  | _, _ => false
  end.

(** The key of the [predictions] map, the string
    [`${lat.toFixed(4)},${lon.toFixed(4)},${yearsAhead}`]: two keys are the
    same string exactly when the three printed numbers agree. *)
Definition CacheKey : Type := (bool * Z) * (bool * Z) * Qc.

Definition cacheKey (tract : Properties) (yearsAhead : Q) : CacheKey :=
  (JS.toFixed4 (lat tract), JS.toFixed4 (lon tract), Q2Qc yearsAhead).

(** The part of [predictFutureEcoScore] that runs on a cache miss, up to
    the value of the local [predictedScore], which is not rounded. *)
Definition projectScore (tract : Properties) (yearsAhead : Q) : Q :=
  let currentScore := or_default (ecoScore tract) 50 in
  let trend := calculateTrend tract in
  let regionalFactor := getRegionalTrendFactor tract in
  let urbanPressure := getUrbanPressureFactor tract in
  let annualDecline :=
    calculateAnnualDecline trend regionalFactor urbanPressure in
  JS.Math_max 0 (JS.Math_min 100 (currentScore + annualDecline * yearsAhead)).

(** The prediction object built on a cache miss. *)
Definition newPrediction (tract : Properties) (yearsAhead : Q) : Prediction :=
  let currentScore := or_default (ecoScore tract) 50 in
  let trend := calculateTrend tract in
  let regionalFactor := getRegionalTrendFactor tract in
  let urbanPressure := getUrbanPressureFactor tract in
  let annualDecline :=
    calculateAnnualDecline trend regionalFactor urbanPressure in
  let predictedScore := projectScore tract yearsAhead in
  let riskLevel := calculateRiskLevel currentScore predictedScore yearsAhead in
  {| currentScore := currentScore;
     predictedScore := JS.Math_round predictedScore;
     yearsAhead := yearsAhead;
     annualDecline := annualDecline;
     riskLevel := riskLevel;
     needsAction := risk_eqb riskLevel critical || risk_eqb riskLevel high;
     trend := trend;
     regionalFactor := regionalFactor;
     urbanPressure := urbanPressure |}.

(** [predictFutureEcoScore]: the [predictions] map is threaded through;
    a hit returns the stored object, a miss stores the new one. *)
Definition predictFutureEcoScore
    (predictions : gmap CacheKey Prediction)
    (tract : Properties) (yearsAhead : Q)
    : Prediction * gmap CacheKey Prediction :=
  let key := cacheKey tract yearsAhead in
  match predictions !! key with
  | Some prediction => (prediction, predictions)
  | None =>
      let prediction := newPrediction tract yearsAhead in
      (prediction, <[key := prediction]> predictions)
  end.

(** A run of calls from one predictor instance: the predictions returned,
    in order, and the final map. *)
Fixpoint predictAll
    (predictions : gmap CacheKey Prediction)
    (calls : list (Properties * Q))
    : list Prediction * gmap CacheKey Prediction :=
  match calls with
  | [] => ([], predictions)
  | (tract, yearsAhead) :: rest =>
      let '(p, predictions') := predictFutureEcoScore predictions tract yearsAhead in
      let '(ps, final) := predictAll predictions' rest in
      (p :: ps, final)
  end.


Definition riskOrder (r : RiskLevel) : Q :=
  match r with
  | critical => 0
  | high => 1
  | moderate => 2
  | low => 3
  end.

(** The comparator of [predictions.sort] in [getWorstPredictedTracts], on
    tracts paired with their predictions. *)
Definition compareWorst (a b : Properties * Prediction) : Q :=
  let riskDiff := riskOrder (riskLevel (snd a)) - riskOrder (riskLevel (snd b)) in
  if negb (riskDiff === 0) then riskDiff
  else predictedScore (snd a) - predictedScore (snd b).

(** [Array.prototype.sort(compare)] as a stable insertion sort: an element
    goes in front of the first one it does not compare greater than. *)
Fixpoint insertBy {A : Type} (compare : A -> A -> Q) (x : A) (l : list A) : list A :=
  match l with
  | [] => [x]
  | y :: rest =>
      if compare x y <=? 0 then x :: y :: rest
      else y :: insertBy compare x rest
  end.

Definition sortBy {A : Type} (compare : A -> A -> Q) (l : list A) : list A :=
  fold_right (insertBy compare) [] l.

(** [getWorstPredictedTracts]: the tracts that need action, each with the
    prediction it was given, worst first; and the [predictions] map
    after the calls. *)
Definition getWorstPredictedTracts
    (predictions : gmap CacheKey Prediction)
    (tracts : list Properties) (yearsAhead : Q)
    : list (Properties * Prediction) * gmap CacheKey Prediction :=
  let '(results, predictions') :=
    predictAll predictions (map (fun tract => (tract, yearsAhead)) tracts) in
  let sorted := sortBy compareWorst (combine tracts results) in
  (List.filter (fun p => needsAction (snd p)) sorted, predictions').

End SimpleAIPredictor.

(* ===================================================================== *)
(** ** class EEService: the simulated Earth Engine service *)
(* ===================================================================== *)

Module EEService.

Definition greenspaceToNDVI (coverage : Q) : Q :=
  -0.2 + (coverage / 100) * 1.0.

Definition waterQualityToNDWI (quality : Q) : Q :=
  0.1 + (quality / 100) * 0.5.

End EEService.

(* ===================================================================== *)
(** ** The specification's vocabulary *)
(* ===================================================================== *)

Module Spec.

(** [clamp(x, lo, hi)] *)
Definition clamp (x lo hi : Q) : Q :=
  if Qlt_le_dec x lo then lo
  else if Qlt_le_dec hi x then hi
  else x.

(** NDVI to greenspace %, the four segments as the specification lists
    them, the last one clamped to 100. *)
Definition ndviToGreenspace (ndvi : Q) : Q :=
  if Qlt_le_dec ndvi 0 then 0
  else if Qlt_le_dec ndvi 0.3 then ndvi * 50
  else if Qlt_le_dec ndvi 0.6 then 15 + (ndvi - 0.3) * 100
  else Qmin 100 (45 + (ndvi - 0.6) * 137.5).

(** NDWI to water quality, as the specification lists it. *)
Definition ndwiToWaterQuality (ndwi : Q) : Q :=
  let base := (ndwi + 1) * 50 in
  if Qlt_le_dec 0.5 ndwi then Qmin 100 (base + 20)
  else if Qlt_le_dec 0 ndwi then base
  else Qmax 0 (base - 20).

(** A five-bucket category scale with thresholds [t1 > t2 > t3 > t4],
    read at the score [s]. *)
Definition five_buckets (t1 t2 t3 t4 : Q) (f : Q -> Category) (s : Q) : Prop :=
  (f s = Excellent <-> t1 <= s)
  /\ (f s = Good <-> t2 <= s /\ s < t1)
  /\ (f s = Moderate <-> t3 <= s /\ s < t2)
  /\ (f s = Poor <-> t4 <= s /\ s < t3)
  /\ (f s = VeryPoor <-> s < t4).

(** [count(x <= s)] over the batch as given. *)
Definition count_le (s : Q) (batch : list Q) : nat :=
  length (List.filter (fun x => Qle_bool x s) batch).

(** [round(100 * count(x <= s) / N)] *)
Definition percentile (s : Q) (batch : list Q) : Q :=
  JS.Math_round
    (100 * inject_Z (Z.of_nat (count_le s batch))
     / inject_Z (Z.of_nat (length batch))).

(** [count(x <= s)] over a batch of binary64 scores. *)
Definition count_le_binary64 (s : float) (batch : list float) : nat :=
  length (List.filter (fun x => PrimFloat.leb x s) batch).

(** [baseDeclineForTrend] *)
Definition baseDeclineForTrend (t : SimpleAIPredictor.Trend) : Q :=
  match t with
  | SimpleAIPredictor.declining => -1.5
  | SimpleAIPredictor.at_risk => -1.0
  | SimpleAIPredictor.slight_decline => -0.5
  | SimpleAIPredictor.stable => -0.1
  end.

(** [declineRate > k] with
    [declineRate = (currentScore - predictedScore) / yearsAhead]. *)
Definition declineRate_gt (currentScore predictedScore yearsAhead k : Q) : Prop :=
  JS.number_gt (JS.div (currentScore - predictedScore) yearsAhead) k = true.

(** [declineRate <= k] for the same rate. *)
Definition declineRate_le (currentScore predictedScore yearsAhead k : Q) : Prop :=
  JS.number_le (JS.div (currentScore - predictedScore) yearsAhead) k = true.

(** The tract of the end-to-end scenario, at (38.5, -122.9). *)
Definition sonoma : SimpleAIPredictor.Properties :=
  SimpleAIPredictor.mkProperties 38.5 (-122.9) None None None.

(** The end-to-end scenario as the specification words it: the location
    is neither urban nor coastal, the direct estimates stay within the
    jitter (10 points) of 60 and of 40, and the trend is
    [slight_decline]. *)
Definition sonoma_scenario : Prop :=
  EcoPercentileCalculator.isUrbanArea 38.5 (-122.9) = false
  /\ EcoPercentileCalculator.isCoastalArea 38.5 (-122.9) = false
  /\ (forall random, 0 <= random < 1 ->
      60 - 10
      <= EcoPercentileCalculator.estimateWaterQualitySync 38.5 (-122.9) random
      <= 60 + 10)
  /\ (forall random, 0 <= random < 1 ->
      40 - 10
      <= EcoPercentileCalculator.estimateGreenspaceSync 38.5 (-122.9) random
      <= 40 + 10)
  /\ SimpleAIPredictor.calculateTrend sonoma = SimpleAIPredictor.slight_decline.

(** A rural inland tract (central Kansas) with eco-score 60. *)
Definition plains : SimpleAIPredictor.Properties :=
  SimpleAIPredictor.mkProperties 38.5 (-98) (Some 60) None None.

(** What a call of the projector may be given: a current score in
    [0, 100] and at least one year ahead. *)
Definition valid_call (call : SimpleAIPredictor.Properties * Q) : Prop :=
  0 <= SimpleAIPredictor.or_default (SimpleAIPredictor.ecoScore (fst call)) 50 <= 100
  /\ 1 <= snd call.

(** A prediction that shows no improvement, with an annual decline in
    [-3.5, -0.6]. *)
Definition no_improvement (p : SimpleAIPredictor.Prediction) : Prop :=
  -3.5 <= SimpleAIPredictor.annualDecline p <= -0.6
  /\ SimpleAIPredictor.predictedScore p <= SimpleAIPredictor.currentScore p.

End Spec.

(* ===================================================================== *)
(** ** Vocabulary of the further properties *)
(* ===================================================================== *)

Module Props.

(** A number with no fractional part. *)
Definition integer (q : Q) : Prop := exists z : Z, q = inject_Z z.

(** A value [Math.random()] can return. *)
Definition drawn (random : Q) : Prop := 0 <= random < 1.

(** The colour [getWaterColor] gives to the scores of a category. *)
Definition waterColorOf (c : Category) : string :=
  match c with
  | Excellent => "#003366"
  | Good => "#0066cc"
  | Moderate => "#3399ff"
  | Poor => "#6699cc"
  | VeryPoor => "#cc6666"
  end.

(** [a] may stand in front of [b] in the order of [compareWorst]. *)
Definition worstFirst
    (a b : SimpleAIPredictor.Properties * SimpleAIPredictor.Prediction) : Prop :=
  SimpleAIPredictor.compareWorst a b <= 0.

(** What every prediction object satisfies, whatever the call. *)
Definition wellFormed (p : SimpleAIPredictor.Prediction) : Prop :=
  (0 <= SimpleAIPredictor.predictedScore p <= 100
   /\ integer (SimpleAIPredictor.predictedScore p))
  /\ (SimpleAIPredictor.needsAction p = true
      <-> SimpleAIPredictor.riskLevel p = SimpleAIPredictor.critical
          \/ SimpleAIPredictor.riskLevel p = SimpleAIPredictor.high)
  /\ SimpleAIPredictor.annualDecline p
     == Spec.baseDeclineForTrend (SimpleAIPredictor.trend p)
        + SimpleAIPredictor.regionalFactor p + SimpleAIPredictor.urbanPressure p.

(** A box around the Sonoma County test region of [generateUSTracts]. *)
Definition inSonomaRegion (tract : SimpleAIPredictor.Properties) : Prop :=
  38 <= SimpleAIPredictor.lat tract <= 39
  /\ -124 <= SimpleAIPredictor.lon tract <= -122.

(** The scored tract as the projector reads it. *)
Definition toProperties (tract : EcoPercentileCalculator.ScoredTract)
    : SimpleAIPredictor.Properties :=
  SimpleAIPredictor.mkProperties
    (EcoPercentileCalculator.lat (EcoPercentileCalculator.location tract))
    (EcoPercentileCalculator.lon (EcoPercentileCalculator.location tract))
    (Some (EcoPercentileCalculator.ecoScore tract))
    (Some (EcoPercentileCalculator.waterQuality tract))
    (Some (EcoPercentileCalculator.greenspace tract)).

(** A tract as [processTracts] leaves it, given the scores of its batch. *)
Definition scoredWell (allScores : list Q)
    (tract : EcoPercentileCalculator.ScoredTract) : Prop :=
  0 <= EcoPercentileCalculator.waterQuality tract <= 100
  /\ 0 <= EcoPercentileCalculator.greenspace tract <= 100
  /\ 0 <= EcoPercentileCalculator.ecoScore tract <= 100
  /\ EcoPercentileCalculator.ecoScore tract
     == (EcoPercentileCalculator.waterQuality tract
         + EcoPercentileCalculator.greenspace tract) / 2
  /\ EcoPercentileCalculator.waterColor tract
     = EcoPercentileCalculator.getWaterColor
         (EcoPercentileCalculator.waterQuality tract)
  /\ EcoPercentileCalculator.greenspaceColor tract
     = EcoPercentileCalculator.getGreenspaceColor
         (EcoPercentileCalculator.greenspace tract)
  /\ EcoPercentileCalculator.ecoPercentile tract
     = Some (EcoPercentileCalculator.calculatePercentile
               (EcoPercentileCalculator.ecoScore tract) allScores).

(** The batch of the scores 1, 2, ..., n. *)
Definition one_to (n : nat) : list float :=
  List.map Binary64.of_nat (List.seq 1 n).

(** In a batch of [n] scores, one score out of [n] rounds on binary64 to
    [round(100 / n)]. *)
Definition unique_min_agrees (n : nat) : bool :=
  match Binary64.Math_round (1 / Binary64.of_nat n * 100)%float with
  | Some q => Qeq_bool q (JS.Math_round (100 / inject_Z (Z.of_nat n)))
  | None => false
  end.

End Props.

(* ===================================================================== *)
(** ** Comparisons, [Math.max], [Math.min], [Math.round] *)
(* ===================================================================== *)

Section Reflection.

Variables a b : Q.

Lemma le_spec : reflect (a <= b) (a <=? b).
Proof.
  unfold JS.le. destruct (Qle_bool a b) eqn:E; constructor.
  - now apply Qle_bool_iff.
  - intros H. apply Qle_bool_iff in H. congruence.
Qed.

Lemma lt_spec : reflect (a < b) (a <? b).
Proof.
  unfold JS.lt. destruct (Qle_bool b a) eqn:E; constructor; simpl.
  - apply Qle_not_lt. now apply Qle_bool_iff.
  - apply Qnot_le_lt. intros H. apply Qle_bool_iff in H. congruence.
Qed.

Lemma strict_eq_spec : reflect (a == b) (a === b).
Proof.
  unfold JS.strict_eq. destruct (Qeq_bool a b) eqn:E; constructor.
  - now apply Qeq_bool_iff.
  - intros H. apply Qeq_bool_iff in H. congruence.
Qed.

End Reflection.

(** Split on the next comparison of the goal, then on one of a hypothesis. *)
Ltac js_case :=
  match goal with
  | |- context [JS.lt ?x ?y] => destruct (lt_spec x y)
  | |- context [JS.le ?x ?y] => destruct (le_spec x y)
  | |- context [JS.strict_eq ?x ?y] => destruct (strict_eq_spec x y)
  | |- context [Qlt_le_dec ?x ?y] => destruct (Qlt_le_dec x y)
  | H : context [JS.lt ?x ?y] |- _ => destruct (lt_spec x y)
  | H : context [JS.le ?x ?y] |- _ => destruct (le_spec x y)
  | H : context [JS.strict_eq ?x ?y] |- _ => destruct (strict_eq_spec x y)
  end.

Ltac js_unfold :=
  unfold JS.Math_max, JS.Math_min, JS.Math_abs, inBox, JS.gt, JS.ge in *.

Ltac js_solve :=
  js_unfold; repeat js_case; simpl in *;
  try lra; try congruence; try (exfalso; lra).

Lemma Math_max_spec (a b : Q) :
  a <= JS.Math_max a b /\ b <= JS.Math_max a b
  /\ (JS.Math_max a b = a \/ JS.Math_max a b = b).
Proof. js_solve; repeat split; auto; lra. Qed.

Lemma Math_min_spec (a b : Q) :
  JS.Math_min a b <= a /\ JS.Math_min a b <= b
  /\ (JS.Math_min a b = a \/ JS.Math_min a b = b).
Proof. js_solve; repeat split; auto; lra. Qed.

(** [Math.max(lo, Math.min(hi, x))] is the specification's clamp. *)
Lemma max_min_clamp (x lo hi : Q) :
  lo <= hi -> JS.Math_max lo (JS.Math_min hi x) == Spec.clamp x lo hi.
Proof. intros H. unfold Spec.clamp. js_solve. Qed.

Lemma clamp_range (x lo hi : Q) :
  lo <= hi -> lo <= Spec.clamp x lo hi <= hi.
Proof. intros H. unfold Spec.clamp. js_solve. Qed.

Lemma Math_round_bounds (x : Q) :
  x - 0.5 < JS.Math_round x /\ JS.Math_round x <= x + 0.5.
Proof.
  unfold JS.Math_round. split.
  - pose proof (Qlt_floor (x + 0.5)) as H.
    rewrite inject_Z_plus in H. change (inject_Z 1) with 1 in H.
    set (n := inject_Z (Qfloor (x + 0.5))) in *. lra.
  - apply Qfloor_le.
Qed.

Lemma Math_round_int (z : Z) : JS.Math_round (inject_Z z) = inject_Z z.
Proof.
  unfold JS.Math_round. f_equal.
  pose proof (Qfloor_le (inject_Z z + 0.5)) as Hle.
  pose proof (Qlt_floor (inject_Z z + 0.5)) as Hlt.
  set (n := Qfloor (inject_Z z + 0.5)) in *.
  assert (H1 : inject_Z n < inject_Z (z + 1)).
  { rewrite inject_Z_plus. change (inject_Z 1) with 1. lra. }
  assert (H2 : inject_Z (z - 1) < inject_Z n).
  { rewrite inject_Z_plus in Hlt. unfold Z.sub. rewrite inject_Z_plus.
    change (inject_Z 1) with 1 in Hlt.
    change (inject_Z (- (1))) with (- (1)). lra. }
  rewrite <- Zlt_Qlt in H1, H2. lia.
Qed.

Lemma Math_round_comp (x y : Q) : x == y -> JS.Math_round x = JS.Math_round y.
Proof. intros H. unfold JS.Math_round. now rewrite H. Qed.

(* ===================================================================== *)
(** ** Index calculator and score converter *)
(* ===================================================================== *)

Section SpectralIndexProofs.

Import SpectralIndicesCalculator.

(** C8.  [calculateNDVI(red, nir)] returns 0 when [nir + red] is 0 and
    otherwise the quotient [(nir - red) / (nir + red)] clamped to
    [-1, 1]; it is defined on every pair and its value always lies in
    [-1, 1].  On [red = 0.15], [nir = 0.225] the exact value is 0.2, and
    the binary64 evaluation is within 1e-9 of 0.2. *)
Theorem calculateNDVI_guarded (red nir : Q) :
  (nir + red == 0 -> calculateNDVI red nir = 0)
  /\ (~ nir + red == 0 ->
      calculateNDVI red nir
      == Spec.clamp ((nir - red) / (nir + red)) (-1) 1)
  /\ -1 <= calculateNDVI red nir <= 1
  /\ calculateNDVI 0.15 0.225 == 0.2
  /\ PrimFloat.ltb
       (PrimFloat.abs (calculateNDVI_binary64 0.15 0.225 - 0.2)%float)
       1e-9%float = true.
Proof.
  unfold calculateNDVI.
  split; [| split; [| split; [split |]; [| | split]]].
  - intros H. js_case; [reflexivity | contradiction].
  - intros H. js_case; [contradiction |].
    apply max_min_clamp. lra.
  - js_case; [lra |].
    apply (Math_max_spec (-1) (JS.Math_min 1 ((nir - red) / (nir + red)))).
  - js_case; [lra |].
    destruct (Math_max_spec (-1) (JS.Math_min 1 ((nir - red) / (nir + red))))
      as (_ & _ & [-> | ->]); [lra |].
    apply Math_min_spec.
  - reflexivity.
  - vm_compute. reflexivity.
Qed.

Lemma calculateNDVI_guarded_witness :
  calculateNDVI (-1) 1 = 0
  /\ calculateNDVI 1 3 == Spec.clamp ((3 - 1) / (3 + 1)) (-1) 1.
Proof.
  split.
  - apply (calculateNDVI_guarded (-1) 1). reflexivity.
  - apply (calculateNDVI_guarded 1 3). discriminate.
Defined.

(** The binary64 quotient is close to, but not equal to, the double
    nearest to 0.2. *)
Remark calculateNDVI_binary64_inexact :
  PrimFloat.eqb (calculateNDVI_binary64 0.15 0.225) 0.2%float = false.
Proof. vm_compute. reflexivity. Qed.

Lemma ndviToGreenspace_refines (ndvi : Q) :
  -1 <= ndvi <= 1 -> ndviToGreenspace ndvi == Spec.ndviToGreenspace ndvi.
Proof.
  intros [Hlo Hhi]. unfold ndviToGreenspace, Spec.ndviToGreenspace.
  repeat js_case; try lra.
  rewrite Q.min_r; [reflexivity | lra].
Qed.

Lemma ndwiToWaterQuality_refines (ndwi : Q) :
  ndwiToWaterQuality ndwi == Spec.ndwiToWaterQuality ndwi.
Proof.
  unfold ndwiToWaterQuality, Spec.ndwiToWaterQuality.
  js_unfold. repeat js_case; try lra.
  - rewrite Q.min_r; [reflexivity | lra].
  - rewrite Q.min_l; [reflexivity | lra].
  - rewrite Q.max_r; [reflexivity | lra].
  - rewrite Q.max_l; [reflexivity | lra].
Qed.

Lemma ndviToGreenspace_range (ndvi : Q) :
  -1 <= ndvi <= 1 -> 0 <= ndviToGreenspace ndvi <= 100.
Proof. intros [Hlo Hhi]. unfold ndviToGreenspace. js_solve. Qed.

Lemma ndwiToWaterQuality_range (ndwi : Q) :
  -1 <= ndwi <= 1 -> 0 <= ndwiToWaterQuality ndwi <= 100.
Proof. intros [Hlo Hhi]. unfold ndwiToWaterQuality. js_solve. Qed.

(** C3.  On every index in [-1, 1] the NDVI converter is the
    specification's four-segment map (its clamp to 100 included), the NDWI
    converter is the specification's adjusted base, and both values lie
    in [0, 100]. *)
Theorem score_converters_refine (index : Q) :
  -1 <= index <= 1 ->
  ndviToGreenspace index == Spec.ndviToGreenspace index
  /\ ndwiToWaterQuality index == Spec.ndwiToWaterQuality index
  /\ 0 <= ndviToGreenspace index <= 100
  /\ 0 <= ndwiToWaterQuality index <= 100.
Proof.
  intros H. split; [| split; [| split]].
  - now apply ndviToGreenspace_refines.
  - apply ndwiToWaterQuality_refines.
  - now apply ndviToGreenspace_range.
  - now apply ndwiToWaterQuality_range.
Qed.

Lemma score_converters_refine_witness :
  ndviToGreenspace 0.8 == Spec.ndviToGreenspace 0.8
  /\ ndwiToWaterQuality 0.8 == Spec.ndwiToWaterQuality 0.8
  /\ 0 <= ndviToGreenspace 0.8 <= 100
  /\ 0 <= ndwiToWaterQuality 0.8 <= 100.
Proof. apply (score_converters_refine 0.8). split; discriminate. Defined.

End SpectralIndexProofs.

(* ===================================================================== *)
(** ** Category tables *)
(* ===================================================================== *)

Section CategoryProofs.

Import GreenspaceAnalyzer WaterQualityAnalyzer.

Ltac buckets :=
  unfold Spec.five_buckets; js_unfold; repeat js_case;
  repeat split; intros; try discriminate; try reflexivity;
  try lra; try (exfalso; lra);
  repeat match goal with H : _ /\ _ |- _ => destruct H end;
  try lra; try (exfalso; lra).

Lemma getQualityCategory_scale (s : Q) :
  Spec.five_buckets 80 60 40 20 getQualityCategory s.
Proof. unfold getQualityCategory. buckets. Qed.

Lemma getGreenspaceCategory_scale (s : Q) :
  Spec.five_buckets 60 40 20 10 getGreenspaceCategory s.
Proof. unfold getGreenspaceCategory. buckets. Qed.

(** At [coverage = 70] the greenspace categorizer answers [Excellent],
    where the 80/60/40/20 scale has [Good]. *)
Lemma greenspace_scale_counterexample :
  getGreenspaceCategory 70 = Excellent
  /\ 60 <= 70 /\ 70 < 80
  /\ ~ Spec.five_buckets 80 60 40 20 getGreenspaceCategory 70.
Proof.
  split; [reflexivity |]. split; [discriminate |]. split; [reflexivity |].
  intros (Hex & _). destruct Hex as [Hex _].
  specialize (Hex eq_refl). revert Hex. apply Qlt_not_le. reflexivity.
Qed.

(** C2 (amended).  For every score the water-quality categorizer follows
    the five-bucket scale at 80/60/40/20, and the greenspace categorizer
    follows the five-bucket scale at 60/40/20/10. *)
Theorem category_scales (s : Q) :
  Spec.five_buckets 80 60 40 20 getQualityCategory s
  /\ Spec.five_buckets 60 40 20 10 getGreenspaceCategory s.
Proof.
  split; [apply getQualityCategory_scale | apply getGreenspaceCategory_scale].
Qed.

End CategoryProofs.

(* ===================================================================== *)
(** ** Eco-score and percentile *)
(* ===================================================================== *)

Section EcoScoreProofs.

Import EcoPercentileCalculator.

(** C5.  [calculateEcoScore] is the clamp to [0, 100] of the 50/50
    blend of its two arguments, and [calculateEcoScore(80, 40)] is 60. *)
Theorem calculateEcoScore_clamped (waterQuality greenspace : Q) :
  calculateEcoScore waterQuality greenspace
  == Spec.clamp (waterQuality * 0.5 + greenspace * 0.5) 0 100
  /\ calculateEcoScore 80 40 == 60.
Proof.
  split; [| reflexivity].
  unfold calculateEcoScore. apply max_min_clamp. discriminate.
Qed.

(** C10.  With an empty batch [calculatePercentile] returns 50. *)
Theorem calculatePercentile_empty (score : Q) :
  calculatePercentile score [] = 50.
Proof. reflexivity. Qed.

Lemma filter_length_Permutation {A : Type} (f : A -> bool) (l l' : list A) :
  Permutation l l' ->
  length (List.filter f l) = length (List.filter f l').
Proof.
  induction 1 as [| x l l' _ IH | x y l | l l' l'' _ IH1 _ IH2]; simpl.
  - reflexivity.
  - destruct (f x); simpl; congruence.
  - destruct (f x), (f y); reflexivity.
  - congruence.
Qed.

(** The rank taken from the sorted copy is the count over the batch. *)
Lemma rank_sorted (s : Q) (batch : list Q) :
  length (List.filter (fun x => x <=? s) (ScoreSort.sort batch))
  = Spec.count_le s batch.
Proof.
  unfold Spec.count_le. symmetry.
  apply (filter_length_Permutation (fun x => x <=? s)).
  apply ScoreSort.Permuted_sort.
Qed.

Lemma length_sorted (batch : list Q) :
  length (ScoreSort.sort batch) = length batch.
Proof. symmetry. apply Permutation_length, ScoreSort.Permuted_sort. Qed.

Lemma calculatePercentile_nonempty (s : Q) (batch : list Q) :
  batch <> [] ->
  calculatePercentile s batch
  = JS.Math_round
      (inject_Z (Z.of_nat (Spec.count_le s batch))
       / inject_Z (Z.of_nat (length batch)) * 100).
Proof.
  intros Hne. unfold calculatePercentile.
  destruct batch as [| x rest]; [contradiction |].
  cbn [length Nat.eqb]. cbv zeta.
  now rewrite rank_sorted, length_sorted.
Qed.

Lemma batch_size_nonzero (batch : list Q) :
  batch <> [] -> ~ inject_Z (Z.of_nat (length batch)) == 0.
Proof.
  intros Hne H. destruct batch as [| x rest]; [contradiction |].
  change 0 with (inject_Z 0) in H. apply inject_Z_injective in H.
  simpl in H. discriminate H.
Qed.

Lemma count_le_all (s : Q) (batch : list Q) :
  (forall x, In x batch -> x <= s) ->
  Spec.count_le s batch = length batch.
Proof.
  unfold Spec.count_le. induction batch as [| y rest IH]; intros Hall.
  - reflexivity.
  - simpl. assert (Hy : Qle_bool y s = true).
    { apply Qle_bool_iff, Hall. now left. }
    rewrite Hy. simpl. f_equal. apply IH.
    intros x Hx. apply Hall. now right.
Qed.

Lemma count_le_none (s : Q) (l : list Q) :
  (forall x, In x l -> s < x) -> Spec.count_le s l = 0%nat.
Proof.
  unfold Spec.count_le. induction l as [| y rest IH]; intros Hall.
  - reflexivity.
  - simpl. assert (Hy : Qle_bool y s = false).
    { destruct (Qle_bool y s) eqn:E; [| reflexivity].
      apply Qle_bool_iff in E.
      assert (s < y) by (apply Hall; now left). exfalso. lra. }
    rewrite Hy. apply IH. intros x Hx. apply Hall. now right.
Qed.

Lemma count_le_unique_min (s : Q) (l1 l2 : list Q) :
  (forall x, In x (l1 ++ l2) -> s < x) ->
  Spec.count_le s (l1 ++ s :: l2) = 1%nat.
Proof.
  intros Hall. unfold Spec.count_le.
  rewrite List.filter_app, length_app. simpl.
  assert (Hs : Qle_bool s s = true) by (apply Qle_bool_iff; lra).
  rewrite Hs. simpl.
  fold (Spec.count_le s l1). fold (Spec.count_le s l2).
  rewrite (count_le_none s l1), (count_le_none s l2); [reflexivity | |];
    intros x Hx; apply Hall, in_or_app; auto.
Qed.

(** In exact arithmetic, on a non-empty batch of N scores
    [calculatePercentile(s, batch)] is [round(100 * count(x <= s) / N)]; a
    score that no score of the batch exceeds (the maximum, in particular)
    gets 100, and a score that occurs once in the batch below all others
    gets [round(100 / N)]. *)
Theorem calculatePercentile_rank (s : Q) (batch : list Q) :
  batch <> [] ->
  calculatePercentile s batch = Spec.percentile s batch
  /\ ((forall x, In x batch -> x <= s) ->
      calculatePercentile s batch = 100)
  /\ (forall l1 l2,
        batch = l1 ++ s :: l2 ->
        (forall x, In x (l1 ++ l2) -> s < x) ->
        calculatePercentile s batch
        = JS.Math_round (100 / inject_Z (Z.of_nat (length batch)))).
Proof.
  intros Hne.
  pose proof (batch_size_nonzero batch Hne) as HN.
  rewrite (calculatePercentile_nonempty s batch Hne).
  split; [| split].
  - unfold Spec.percentile. apply Math_round_comp. field. exact HN.
  - intros Hall. rewrite (count_le_all s batch Hall).
    transitivity (JS.Math_round 100); [| exact (Math_round_int 100)].
    apply Math_round_comp. field. exact HN.
  - intros l1 l2 -> Hall. rewrite (count_le_unique_min s l1 l2 Hall).
    apply Math_round_comp. change (inject_Z (Z.of_nat 1)) with 1.
    field. exact HN.
Qed.

Lemma calculatePercentile_rank_witness :
  [30; 10; 20] <> []
  /\ calculatePercentile 20 [30; 10; 20] = Spec.percentile 20 [30; 10; 20]
  /\ calculatePercentile 30 [30; 10; 20] = 100
  /\ calculatePercentile 10 [30; 10; 20] = JS.Math_round (100 / 3).
Proof.
  split; [discriminate |]. split; [| split].
  - apply (calculatePercentile_rank 20 [30; 10; 20]). discriminate.
  - apply (calculatePercentile_rank 30 [30; 10; 20]); [discriminate |].
    intros x [<- | [<- | [<- | []]]]; discriminate.
  - apply (calculatePercentile_rank 10 [30; 10; 20]
             ltac:(discriminate)) with (l1 := [30]) (l2 := [20]).
    + reflexivity.
    + intros x [<- | [<- | []]]; reflexivity.
Defined.

(** In binary64 the quotient taken first can land just below a tie:
    [(29 / 200) * 100] is 14.499999999999998, below the 14.5 of
    [100 * 29 / 200]. *)
Remark percentile_binary64_tie :
  PrimFloat.ltb ((29 / 200) * 100)%float 14.5%float = true
  /\ PrimFloat.eqb ((100 * 29) / 200)%float 14.5%float = true.
Proof. split; vm_compute; reflexivity. Qed.

Example calculatePercentile_three :
  calculatePercentile 10 [30; 10; 20] = 33
  /\ calculatePercentile 20 [30; 10; 20] = 67
  /\ calculatePercentile 30 [30; 10; 20] = 100.
Proof. repeat split. Qed.

End EcoScoreProofs.

(* ===================================================================== *)
(** ** The percentile on binary64 *)
(* ===================================================================== *)

Section PercentileBinary64.

Import SpecFloat FloatOps.

(** *** Counts are finite binary64 numbers *)

Lemma digits2_pos_iter (p k : positive) :
  digits2_pos (Pos.iter xO p k) = (digits2_pos p + k)%positive.
Proof.
  induction k as [| k IH] using Pos.peano_ind.
  - simpl. now rewrite Pos.add_1_r.
  - rewrite Pos.iter_succ. simpl. rewrite IH. now rewrite Pos.add_succ_r.
Qed.

Lemma digits2_pos_lower (p : positive) :
  (2 ^ (Zpos (digits2_pos p) - 1) <= Zpos p)%Z.
Proof.
  induction p as [p IH | p IH |]; simpl digits2_pos.
  - rewrite Pos2Z.inj_succ.
    replace (Z.succ (Zpos (digits2_pos p)) - 1)%Z
      with (Z.succ (Zpos (digits2_pos p) - 1))%Z by lia.
    rewrite Z.pow_succ_r by lia. lia.
  - rewrite Pos2Z.inj_succ.
    replace (Z.succ (Zpos (digits2_pos p)) - 1)%Z
      with (Z.succ (Zpos (digits2_pos p) - 1))%Z by lia.
    rewrite Z.pow_succ_r by lia. lia.
  - simpl. lia.
Qed.

Lemma digits2_pos_small (p : positive) :
  (Zpos p < 2 ^ 53)%Z -> (Zpos (digits2_pos p) <= 53)%Z.
Proof.
  intros Hp.
  destruct (Z_le_gt_dec (Zpos (digits2_pos p)) 53) as [H | H];
    [exact H | exfalso].
  pose proof (digits2_pos_lower p) as Hl.
  assert (2 ^ 53 <= 2 ^ (Zpos (digits2_pos p) - 1))%Z
    by (apply Z.pow_le_mono_r; lia).
  lia.
Qed.

(** A mantissa of 53 digits with an exponent in range is left as it is. *)
Lemma binary_round_aux_canonical (m : positive) (e : Z) :
  Zpos (digits2_pos m) = 53%Z -> (-1074 <= e <= 971)%Z ->
  binary_round_aux prec emax false (Zpos m) e loc_Exact
  = S754_finite false m e.
Proof.
  intros Hd He.
  assert (Hshr : shr_fexp prec emax (Zpos m) e loc_Exact
                 = ({| shr_m := Zpos m; shr_r := false; shr_s := false |}, e)).
  { unfold shr_fexp. cbn [Zdigits2 shr_record_of_loc]. rewrite Hd.
    replace (fexp prec emax (53 + e) - e)%Z with 0%Z; [reflexivity |].
    unfold fexp, SpecFloat.emin, prec, emax. lia. }
  unfold binary_round_aux. rewrite Hshr.
  cbn [shr_m loc_of_shr_record round_nearest_even]. rewrite Hshr.
  cbn [shr_m].
  replace (e <=? emax - prec)%Z with true; [reflexivity |].
  symmetry. apply Z.leb_le. unfold emax, prec. lia.
Qed.

Lemma binary_round_count (p : positive) :
  (Zpos p < 2 ^ 53)%Z ->
  exists m e, binary_round prec emax false p 0 = S754_finite false m e.
Proof.
  intros Hp. pose proof (digits2_pos_small p Hp) as Hd.
  unfold binary_round.
  replace (fexp prec emax (Zpos (digits2_pos p) + 0))
    with (Zpos (digits2_pos p) - 53)%Z
    by (unfold fexp, SpecFloat.emin, prec, emax; lia).
  unfold shl_align.
  destruct (Zpos (digits2_pos p) - 53 - 0)%Z as [| k | k] eqn:E.
  - exists p, 0%Z. apply binary_round_aux_canonical; lia.
  - lia.
  - exists (Pos.iter xO p k), (Zpos (digits2_pos p) - 53)%Z.
    apply binary_round_aux_canonical; [rewrite digits2_pos_iter |]; lia.
Qed.

Lemma of_nat_finite (n : nat) :
  (0 < n)%nat -> (Z.of_nat n < 2 ^ 53)%Z ->
  exists m e, Prim2SF (Binary64.of_nat n) = S754_finite false m e.
Proof.
  intros Hpos Hn. unfold Binary64.of_nat.
  rewrite FloatAxioms.of_uint63_spec, Uint63.of_Z_spec.
  rewrite Z.mod_small.
  2:{ split; [lia |].
      apply Z.lt_trans with (2 ^ 53)%Z; [exact Hn | reflexivity]. }
  destruct (Z.of_nat n) as [| p | p] eqn:E; [lia | | lia].
  simpl binary_normalize. now apply binary_round_count.
Qed.

(** *** A finite number divided by itself is 1 *)

Lemma div_eucl_pair (a b : Z) : Z.div_eucl a b = ((a / b)%Z, (a mod b)%Z).
Proof. unfold Z.div, Z.modulo. now destruct (Z.div_eucl a b). Qed.

Lemma SF64div_self (s : bool) (m : positive) (e : Z) :
  FloatAxioms.SF64div (S754_finite s m e) (S754_finite s m e) = Prim2SF 1.
Proof.
  unfold FloatAxioms.SF64div, SFdiv, SFdiv_core_binary.
  rewrite !Z.sub_diag.
  change (fexp prec emax 0) with (-53)%Z.
  change (Z.min (-53) 0) with (-53)%Z.
  change (0 - -53)%Z with 53%Z. cbv iota.
  rewrite div_eucl_pair, Z.shiftl_mul_pow2 by lia.
  rewrite Z.mul_comm at 1.
  rewrite Z.div_mul by lia. rewrite Z.mul_comm, Z.mod_mul by lia.
  replace (new_location (Zpos m) 0) with loc_Exact
    by (unfold new_location; now destruct (Z.even (Zpos m))).
  destruct s; vm_compute; reflexivity.
Qed.

Lemma of_nat_div_self (n : nat) :
  (0 < n)%nat -> (Z.of_nat n < 2 ^ 53)%Z ->
  (Binary64.of_nat n / Binary64.of_nat n)%float = 1%float.
Proof.
  intros Hpos Hn. apply FloatAxioms.Prim2SF_inj.
  rewrite FloatAxioms.div_spec.
  destruct (of_nat_finite n Hpos Hn) as (m & e & ->).
  apply SF64div_self.
Qed.

(** *** [<] and [<=] on binary64 *)

Lemma SFcompare_antisym (a b : spec_float) :
  SFcompare b a = option_map CompOpp (SFcompare a b).
Proof.
  assert (Hm : forall m1 m2,
             Pos.compare_cont Eq m2 m1 = CompOpp (Pos.compare_cont Eq m1 m2))
    by (intros m1 m2; now rewrite (Pos.compare_cont_antisym m1 m2 Eq)).
  destruct a as [[] | [] | | [] m1 e1], b as [[] | [] | | [] m2 e2];
    simpl; try reflexivity;
    rewrite (Z.compare_antisym e1 e2);
    destruct (e1 ?= e2)%Z; simpl; try reflexivity;
    now rewrite (Hm m1 m2).
Qed.

(** [s < x] excludes [x <= s]. *)
Lemma ltb_not_leb (s x : float) :
  PrimFloat.ltb s x = true -> PrimFloat.leb x s = false.
Proof.
  rewrite FloatAxioms.ltb_spec, FloatAxioms.leb_spec.
  unfold SFltb, SFleb. rewrite (SFcompare_antisym (Prim2SF s) (Prim2SF x)).
  destruct (SFcompare (Prim2SF s) (Prim2SF x)) as [[] |]; simpl;
    intros H; try discriminate H; reflexivity.
Qed.

(** [s <= s] unless [s] is NaN. *)
Lemma leb_refl (s : float) :
  PrimFloat.is_nan s = false -> PrimFloat.leb s s = true.
Proof.
  unfold PrimFloat.is_nan. intros H. apply negb_false_iff in H.
  rewrite FloatAxioms.eqb_spec in H. rewrite FloatAxioms.leb_spec.
  unfold SFeqb in H. unfold SFleb.
  destruct (SFcompare (Prim2SF s) (Prim2SF s)) as [[] |];
    try discriminate H; reflexivity.
Qed.

(** *** The rank is the count over the batch *)

Lemma insertAscending_Permutation (x : float) (l : list float) :
  Permutation (x :: l) (Binary64.insertAscending x l).
Proof.
  induction l as [| y rest IH]; simpl; [reflexivity |].
  destruct (PrimFloat.ltb 0 (x - y)); [| reflexivity].
  rewrite perm_swap. now apply perm_skip.
Qed.

Lemma sortAscending_Permutation (l : list float) :
  Permutation l (Binary64.sortAscending l).
Proof.
  induction l as [| x rest IH]; simpl; [reflexivity |].
  rewrite <- insertAscending_Permutation. now apply perm_skip.
Qed.

Lemma calculatePercentile_quotient (s : float) (batch : list float) :
  batch <> [] ->
  Binary64.calculatePercentile s batch
  = Binary64.Math_round
      (Binary64.of_nat (Spec.count_le_binary64 s batch)
       / Binary64.of_nat (length batch) * 100)%float.
Proof.
  intros Hne. unfold Binary64.calculatePercentile, Spec.count_le_binary64.
  destruct batch as [| x rest]; [contradiction |].
  cbn [length Nat.eqb]. cbv zeta.
  rewrite <- (filter_length_Permutation _ _ _
                (sortAscending_Permutation (x :: rest))).
  rewrite <- (Permutation_length (sortAscending_Permutation (x :: rest))).
  reflexivity.
Qed.

Lemma count_le_binary64_all (s : float) (batch : list float) :
  (forall x, In x batch -> PrimFloat.leb x s = true) ->
  Spec.count_le_binary64 s batch = length batch.
Proof.
  unfold Spec.count_le_binary64.
  induction batch as [| y rest IH]; intros Hall.
  - reflexivity.
  - simpl. rewrite (Hall y) by now left. simpl. f_equal.
    apply IH. intros x Hx. apply Hall. now right.
Qed.

Lemma count_le_binary64_none (s : float) (l : list float) :
  (forall x, In x l -> PrimFloat.ltb s x = true) ->
  Spec.count_le_binary64 s l = 0%nat.
Proof.
  unfold Spec.count_le_binary64.
  induction l as [| y rest IH]; intros Hall.
  - reflexivity.
  - simpl. rewrite (ltb_not_leb s y) by (apply Hall; now left).
    apply IH. intros x Hx. apply Hall. now right.
Qed.

Lemma count_le_binary64_unique_min (s : float) (l1 l2 : list float) :
  PrimFloat.is_nan s = false ->
  (forall x, In x (l1 ++ l2) -> PrimFloat.ltb s x = true) ->
  Spec.count_le_binary64 s (l1 ++ s :: l2) = 1%nat.
Proof.
  intros Hs Hall. unfold Spec.count_le_binary64.
  rewrite List.filter_app, length_app. simpl.
  rewrite (leb_refl s Hs). simpl.
  fold (Spec.count_le_binary64 s l1). fold (Spec.count_le_binary64 s l2).
  rewrite (count_le_binary64_none s l1), (count_le_binary64_none s l2);
    [reflexivity | |]; intros x Hx; apply Hall, in_or_app; auto.
Qed.

(** *** One score out of N *)

Lemma unique_min_checked :
  forallb Props.unique_min_agrees (List.seq 1 1000) = true.
Proof. vm_compute. reflexivity. Qed.

Lemma unique_min_round (n : nat) :
  (1 <= n <= 1000)%nat ->
  Binary64.Math_round (1 / Binary64.of_nat n * 100)%float
  = Some (JS.Math_round (100 / inject_Z (Z.of_nat n))).
Proof.
  intros Hn.
  pose proof (proj1 (List.forallb_forall _ _) unique_min_checked n) as H.
  assert (Hin : In n (List.seq 1 1000)) by (apply in_seq; lia).
  specialize (H Hin). unfold Props.unique_min_agrees in H.
  unfold Binary64.Math_round in *.
  destruct (Binary64.value (1 / Binary64.of_nat n * 100)%float) as [v |];
    [| discriminate H].
  cbn [option_map] in *. f_equal.
  apply Qeq_bool_iff in H. unfold JS.Math_round in *.
  apply (proj1 (inject_Z_injective _ _)) in H. now rewrite H.
Qed.

(** C4 (amended).  On a non-empty batch of N scores (N below 2^32, as the
    length of every array) [calculatePercentile(s, batch)] is [Math.round]
    of [(count(x <= s) / N) * 100], the quotient and then the product
    rounded to binary64.  A score that no score of the batch exceeds (the
    maximum, in particular) gets 100.  A number that occurs once in the
    batch below all others gets [Math.round((1 / N) * 100)], which is
    [round(100 / N)] for every N up to 1000. *)
Theorem calculatePercentile_binary64 (s : float) (batch : list float) :
  batch <> [] -> (Z.of_nat (length batch) < 2 ^ 32)%Z ->
  Binary64.calculatePercentile s batch
  = Binary64.Math_round
      (Binary64.of_nat (Spec.count_le_binary64 s batch)
       / Binary64.of_nat (length batch) * 100)%float
  /\ ((forall x, In x batch -> PrimFloat.leb x s = true) ->
      Binary64.calculatePercentile s batch = Some 100)
  /\ (forall l1 l2,
        batch = l1 ++ s :: l2 ->
        PrimFloat.is_nan s = false ->
        (forall x, In x (l1 ++ l2) -> PrimFloat.ltb s x = true) ->
        Binary64.calculatePercentile s batch
        = Binary64.Math_round (1 / Binary64.of_nat (length batch) * 100)%float
        /\ ((length batch <= 1000)%nat ->
            Binary64.calculatePercentile s batch
            = Some (JS.Math_round
                      (100 / inject_Z (Z.of_nat (length batch)))))).
Proof.
  intros Hne Hlen. rewrite (calculatePercentile_quotient s batch Hne).
  assert (Hpos : (0 < length batch)%nat)
    by (destruct batch; [contradiction | simpl; lia]).
  split; [reflexivity | split].
  - intros Hall. rewrite (count_le_binary64_all s batch Hall).
    rewrite of_nat_div_self.
    + vm_compute. reflexivity.
    + exact Hpos.
    + eapply Z.lt_trans; [exact Hlen | reflexivity].
  - intros l1 l2 E Hs Hall. subst batch.
    rewrite (count_le_binary64_unique_min s l1 l2 Hs Hall).
    split; [reflexivity |].
    intros Hsmall. apply unique_min_round. lia.
Qed.

Lemma calculatePercentile_binary64_witness :
  [30; 10; 20]%float <> []
  /\ (Z.of_nat (length [30; 10; 20]%float) < 2 ^ 32)%Z
  /\ Binary64.calculatePercentile 20 [30; 10; 20]%float
     = Binary64.Math_round
         (Binary64.of_nat (Spec.count_le_binary64 20 [30; 10; 20]%float)
          / Binary64.of_nat (length [30; 10; 20]%float) * 100)%float
  /\ Binary64.calculatePercentile 30 [30; 10; 20]%float = Some 100
  /\ Binary64.calculatePercentile 10 [30; 10; 20]%float
     = Some (JS.Math_round (100 / 3)).
Proof.
  split; [discriminate |]. split; [reflexivity |]. split; [| split].
  - apply (calculatePercentile_binary64 20 [30; 10; 20]%float);
      [discriminate | reflexivity].
  - apply (calculatePercentile_binary64 30 [30; 10; 20]%float);
      [discriminate | reflexivity |].
    intros x [<- | [<- | [<- | []]]]; reflexivity.
  - apply (calculatePercentile_binary64 10 [30; 10; 20]%float
             ltac:(discriminate) ltac:(reflexivity))
      with (l1 := [30]%float) (l2 := [20]%float).
    + reflexivity.
    + reflexivity.
    + intros x [<- | [<- | []]]; reflexivity.
    + simpl. lia.
Defined.

(** The score 23 in the batch 1, 2, ..., 40: 23 of the 40 scores are at
    most 23, and [round(100 * 23 / 40)] is 58, the tie 57.5 going up.  The
    code takes the quotient first: [23 / 40] is rounded below 0.575, the
    product lands below 57.5, and the percentile is 57. *)
Lemma calculatePercentile_tie_counterexample :
  Props.one_to 40 <> []
  /\ Spec.count_le_binary64 23 (Props.one_to 40) = 23%nat
  /\ length (Props.one_to 40) = 40%nat
  /\ JS.Math_round (100 * 23 / 40) = 58
  /\ Binary64.calculatePercentile 23 (Props.one_to 40) = Some 57
  /\ PrimFloat.ltb (23 / 40 * 100)%float 57.5%float = true.
Proof.
  split; [discriminate |]. repeat split; vm_compute; reflexivity.
Qed.

End PercentileBinary64.

(* ===================================================================== *)
(** ** Risk classification *)
(* ===================================================================== *)

Section RiskProofs.

Import SimpleAIPredictor.

Lemma number_gt_finite (a b k : Q) :
  ~ b == 0 -> (JS.number_gt (JS.div a b) k = true <-> k < a / b).
Proof.
  intros Hb. unfold JS.div.
  destruct (strict_eq_spec b 0) as [H0 | _]; [contradiction |].
  simpl. unfold JS.gt.
  destruct (lt_spec k (a / b)); split; intros; auto; try discriminate;
    try contradiction.
Qed.

Lemma number_le_not_gt (x : JS.number) (k : Q) :
  JS.number_le x k = true -> JS.number_gt x k = false.
Proof.
  destruct x as [q | | |]; simpl; try discriminate; try reflexivity.
  unfold JS.gt. intros H. repeat js_case; try reflexivity; try discriminate.
  exfalso. lra.
Qed.

Ltac risk_cases :=
  repeat split; intros;
  repeat match goal with
         | H : _ /\ _ |- _ => destruct H
         | H : _ \/ _ |- _ => destruct H
         | H : ~ (_ \/ _) |- _ => apply Decidable.not_or in H
         end;
  try discriminate; try reflexivity; try congruence;
  try lra; try (exfalso; lra); try tauto.

(** C7.  With [declineRate = (currentScore - predictedScore) / yearsAhead]
    the risk classifier answers [critical] exactly when
    [predictedScore < 30] or [declineRate > 2], else [high] when
    [predictedScore < 50] or [declineRate > 1.5], else [moderate] when
    [declineRate > 0.5], else [low]; for [yearsAhead] other than 0 the
    rate is the ordinary quotient.  A predicted score of 29.9 is
    [critical]; a predicted score of 30 with [declineRate <= 2] is
    [high]. *)
Theorem calculateRiskLevel_cascade (currentScore predictedScore yearsAhead : Q) :
  (calculateRiskLevel currentScore predictedScore yearsAhead = critical
   <-> predictedScore < 30
       \/ Spec.declineRate_gt currentScore predictedScore yearsAhead 2)
  /\ (calculateRiskLevel currentScore predictedScore yearsAhead = high
      <-> ~ (predictedScore < 30
             \/ Spec.declineRate_gt currentScore predictedScore yearsAhead 2)
          /\ (predictedScore < 50
              \/ Spec.declineRate_gt currentScore predictedScore yearsAhead 1.5))
  /\ (calculateRiskLevel currentScore predictedScore yearsAhead = moderate
      <-> ~ (predictedScore < 30
             \/ Spec.declineRate_gt currentScore predictedScore yearsAhead 2)
          /\ ~ (predictedScore < 50
                \/ Spec.declineRate_gt currentScore predictedScore yearsAhead 1.5)
          /\ Spec.declineRate_gt currentScore predictedScore yearsAhead 0.5)
  /\ (calculateRiskLevel currentScore predictedScore yearsAhead = low
      <-> ~ (predictedScore < 30
             \/ Spec.declineRate_gt currentScore predictedScore yearsAhead 2)
          /\ ~ (predictedScore < 50
                \/ Spec.declineRate_gt currentScore predictedScore yearsAhead 1.5)
          /\ ~ Spec.declineRate_gt currentScore predictedScore yearsAhead 0.5)
  /\ (~ yearsAhead == 0 ->
      forall k,
        Spec.declineRate_gt currentScore predictedScore yearsAhead k
        <-> k < (currentScore - predictedScore) / yearsAhead)
  /\ calculateRiskLevel currentScore 29.9 yearsAhead = critical
  /\ (Spec.declineRate_le currentScore 30 yearsAhead 2 ->
      calculateRiskLevel currentScore 30 yearsAhead = high).
Proof.
  unfold Spec.declineRate_gt, Spec.declineRate_le.
  split; [| split; [| split; [| split; [| split; [| split]]]]].
  1-4: unfold calculateRiskLevel; cbv zeta;
    destruct (JS.number_gt (JS.div (currentScore - predictedScore) yearsAhead) 2);
    destruct (JS.number_gt (JS.div (currentScore - predictedScore) yearsAhead) 1.5);
    destruct (JS.number_gt (JS.div (currentScore - predictedScore) yearsAhead) 0.5);
    destruct (lt_spec predictedScore 30); destruct (lt_spec predictedScore 50);
    simpl; risk_cases.
  - intros Hy k. now apply number_gt_finite.
  - reflexivity.
  - intros Hle. unfold calculateRiskLevel. cbv zeta.
    rewrite (number_le_not_gt _ _ Hle). reflexivity.
Qed.

Lemma calculateRiskLevel_cascade_witness :
  calculateRiskLevel 60 30 15 = high
  /\ (Spec.declineRate_gt 60 30 15 1.5 <-> 1.5 < (60 - 30) / 15).
Proof.
  split.
  - apply (calculateRiskLevel_cascade 60 30 15). reflexivity.
  - apply (calculateRiskLevel_cascade 60 30 15). discriminate.
Defined.

Example calculateRiskLevel_boundary :
  calculateRiskLevel 50 29.9 15 = critical
  /\ calculateRiskLevel 50 30 15 = high
  /\ calculateRiskLevel 61 30 15 = critical
  /\ calculateRiskLevel 50 50 0 = low
  /\ calculateRiskLevel 51 50 0 = critical.
Proof. repeat split. Qed.

End RiskProofs.

(* ===================================================================== *)
(** ** Trend projection *)
(* ===================================================================== *)

Section ProjectorProofs.

Import SimpleAIPredictor.

Lemma calculateTrend_first_match (tract : Properties) :
  (calculateTrend tract = declining
   <-> isUrbanArea (lat tract) (lon tract) = true)
  /\ (calculateTrend tract = stable
      <-> isUrbanArea (lat tract) (lon tract) = false
          /\ isProtectedArea (lat tract) (lon tract) = true)
  /\ (calculateTrend tract = at_risk
      <-> isUrbanArea (lat tract) (lon tract) = false
          /\ isProtectedArea (lat tract) (lon tract) = false
          /\ isCoastal (lat tract) (lon tract) = true)
  /\ (calculateTrend tract = slight_decline
      <-> isUrbanArea (lat tract) (lon tract) = false
          /\ isProtectedArea (lat tract) (lon tract) = false
          /\ isCoastal (lat tract) (lon tract) = false).
Proof.
  unfold calculateTrend. cbv zeta.
  destruct (isUrbanArea (lat tract) (lon tract));
    destruct (isProtectedArea (lat tract) (lon tract));
    destruct (isCoastal (lat tract) (lon tract));
    repeat split; intros;
    repeat match goal with H : _ /\ _ |- _ => destruct H end;
    try discriminate; reflexivity.
Qed.

Lemma calculateAnnualDecline_sum (t : Trend) (regionalFactor urbanPressure : Q) :
  calculateAnnualDecline t regionalFactor urbanPressure
  = Spec.baseDeclineForTrend t + regionalFactor + urbanPressure.
Proof. destruct t; reflexivity. Qed.

Lemma baseDecline_range (t : Trend) :
  -1.5 <= Spec.baseDeclineForTrend t <= -0.1.
Proof. destruct t; simpl; lra. Qed.

Lemma getRegionalTrendFactor_range (tract : Properties) :
  -0.8 <= getRegionalTrendFactor tract <= -0.2.
Proof.
  unfold getRegionalTrendFactor. cbv zeta.
  repeat match goal with
         | |- context [inBox ?a ?b ?c ?d ?e ?f] => destruct (inBox a b c d e f)
         end; lra.
Qed.

Lemma getUrbanPressureFactor_range (tract : Properties) :
  -1.2 <= getUrbanPressureFactor tract <= -0.3.
Proof.
  unfold getUrbanPressureFactor. cbv zeta.
  destruct (isUrbanArea (lat tract) (lon tract));
    [| destruct (isSuburban (lat tract) (lon tract))]; lra.
Qed.

Lemma annualDecline_range (tract : Properties) :
  -3.5
  <= calculateAnnualDecline (calculateTrend tract)
       (getRegionalTrendFactor tract) (getUrbanPressureFactor tract)
  <= -0.6.
Proof.
  rewrite calculateAnnualDecline_sum.
  pose proof (baseDecline_range (calculateTrend tract)).
  pose proof (getRegionalTrendFactor_range tract).
  pose proof (getUrbanPressureFactor_range tract).
  lra.
Qed.

(** A decline of at least 0.6 a year over at least one year leaves the
    clamped score, rounded or not, at or below a non-negative start. *)
Lemma clamp_decline (current decline years : Q) :
  decline <= -0.6 -> 1 <= years -> 0 <= current ->
  JS.Math_max 0 (JS.Math_min 100 (current + decline * years)) <= current
  /\ JS.Math_round (JS.Math_max 0 (JS.Math_min 100 (current + decline * years)))
     <= current.
Proof.
  intros Hd Hy Hc.
  assert (Hprod : decline * years <= -0.6) by nra.
  set (x := current + decline * years) in *.
  assert (Hx : x <= current - 0.6) by (unfold x; lra).
  clearbody x.
  destruct (Qlt_le_dec x 0) as [Hneg | Hpos].
  - assert (E : JS.Math_max 0 (JS.Math_min 100 x) = 0) by js_solve.
    rewrite E. split; [lra |].
    change (JS.Math_round 0) with 0. exact Hc.
  - pose proof (Math_round_bounds (JS.Math_max 0 (JS.Math_min 100 x))) as [_ Hr].
    assert (E : JS.Math_max 0 (JS.Math_min 100 x) <= x) by js_solve.
    split; lra.
Qed.

Lemma newPrediction_no_improvement (tract : Properties) (years : Q) :
  Spec.valid_call (tract, years) ->
  Spec.no_improvement (newPrediction tract years).
Proof.
  intros [[Hlo Hhi] Hy]. simpl in Hlo, Hhi, Hy.
  split; simpl.
  - apply annualDecline_range.
  - unfold projectScore. cbv zeta.
    apply clamp_decline; [apply annualDecline_range | exact Hy | exact Hlo].
Qed.

(** One call keeps the map free of improving predictions and returns
    such a prediction. *)
Lemma predictFutureEcoScore_no_improvement
    (predictions : gmap CacheKey Prediction) (tract : Properties) (years : Q) :
  map_Forall (fun _ p => Spec.no_improvement p) predictions ->
  Spec.valid_call (tract, years) ->
  Spec.no_improvement (fst (predictFutureEcoScore predictions tract years))
  /\ map_Forall (fun _ p => Spec.no_improvement p)
       (snd (predictFutureEcoScore predictions tract years)).
Proof.
  intros Hinv Hcall. unfold predictFutureEcoScore. cbv zeta.
  destruct (predictions !! cacheKey tract years) as [p |] eqn:Hkey; simpl.
  - split; [| exact Hinv].
    exact (map_Forall_lookup_1 _ _ _ _ Hinv Hkey).
  - pose proof (newPrediction_no_improvement tract years Hcall) as Hnew.
    split; [exact Hnew |].
    apply map_Forall_insert_2; assumption.
Qed.

Lemma predictAll_no_improvement
    (calls : list (Properties * Q)) (predictions : gmap CacheKey Prediction) :
  map_Forall (fun _ p => Spec.no_improvement p) predictions ->
  Forall Spec.valid_call calls ->
  Forall Spec.no_improvement (fst (predictAll predictions calls)).
Proof.
  revert predictions.
  induction calls as [| [tract years] rest IH]; intros predictions Hinv Hcalls.
  - constructor.
  - inversion Hcalls as [| c cs Hcall Hrest]; subst.
    destruct (predictFutureEcoScore_no_improvement predictions tract years
                Hinv Hcall) as [Hp Hinv'].
    simpl.
    destruct (predictFutureEcoScore predictions tract years) as [p predictions'].
    specialize (IH predictions' Hinv' Hrest).
    destruct (predictAll predictions' rest) as [ps final].
    simpl in *. constructor; assumption.
Qed.

(** C9.  The annual decline of every tract lies in [-3.5, -0.6].  With a
    current score in [0, 100] and at least one year ahead, the projected
    score, before and after rounding, is at most the current score; and
    over any run of such calls on a fresh predictor, whether answered
    from the map or computed, every returned prediction has its
    [annualDecline] in [-3.5, -0.6] and its [predictedScore] at most its
    [currentScore]. *)
Theorem projector_never_improves
    (tract : Properties) (years : Q) (calls : list (Properties * Q)) :
  -3.5
  <= calculateAnnualDecline (calculateTrend tract)
       (getRegionalTrendFactor tract) (getUrbanPressureFactor tract)
  <= -0.6
  /\ (Spec.valid_call (tract, years) ->
      projectScore tract years <= or_default (ecoScore tract) 50
      /\ predictedScore (newPrediction tract years)
         <= currentScore (newPrediction tract years))
  /\ (Forall Spec.valid_call calls ->
      Forall Spec.no_improvement (fst (predictAll ∅ calls))).
Proof.
  split; [apply annualDecline_range | split].
  - intros [[Hlo Hhi] Hy]. simpl in Hlo, Hhi, Hy.
    unfold projectScore. simpl. unfold projectScore. cbv zeta.
    apply clamp_decline; [apply annualDecline_range | exact Hy | exact Hlo].
  - apply predictAll_no_improvement, map_Forall_empty.
Qed.

End ProjectorProofs.

Section ProjectionProofs.

Import SimpleAIPredictor.

Lemma projectScore_clamp (tract : Properties) (years : Q) :
  projectScore tract years
  == Spec.clamp
       (or_default (ecoScore tract) 50
        + calculateAnnualDecline (calculateTrend tract)
            (getRegionalTrendFactor tract) (getUrbanPressureFactor tract)
          * years)
       0 100.
Proof. unfold projectScore. cbv zeta. apply max_min_clamp. discriminate. Qed.

Lemma predictFutureEcoScore_miss
    (predictions : gmap CacheKey Prediction) (tract : Properties) (years : Q) :
  predictions !! cacheKey tract years = None ->
  predictFutureEcoScore predictions tract years
  = (newPrediction tract years,
     <[cacheKey tract years := newPrediction tract years]> predictions).
Proof. intros Hmiss. unfold predictFutureEcoScore. cbv zeta. now rewrite Hmiss. Qed.

Lemma predictFutureEcoScore_hit
    (predictions : gmap CacheKey Prediction) (tract : Properties) (years : Q)
    (p : Prediction) :
  predictions !! cacheKey tract years = Some p ->
  predictFutureEcoScore predictions tract years = (p, predictions).
Proof. intros Hhit. unfold predictFutureEcoScore. cbv zeta. now rewrite Hhit. Qed.

(** C6.  The trend classifier answers [declining] on an urban location,
    else [stable] on a protected one, else [at_risk] on a coastal one,
    else [slight_decline]; the annual decline is
    [baseDeclineForTrend + regionalFactor + urbanPressure] with base
    declines -1.5, -1.0, -0.5 and -0.1; and the predicted score, the
    local [predictedScore] of [predictFutureEcoScore], is
    [clamp(currentScore + annualDecline * yearsAhead, 0, 100)].  A newly
    computed prediction holds this trend and this annual decline, takes
    its risk level from that predicted score, and stores the score
    rounded by [Math.round]. *)
Theorem trend_projection
    (predictions : gmap CacheKey Prediction) (tract : Properties) (years : Q) :
  ((calculateTrend tract = declining
    <-> isUrbanArea (lat tract) (lon tract) = true)
   /\ (calculateTrend tract = stable
       <-> isUrbanArea (lat tract) (lon tract) = false
           /\ isProtectedArea (lat tract) (lon tract) = true)
   /\ (calculateTrend tract = at_risk
       <-> isUrbanArea (lat tract) (lon tract) = false
           /\ isProtectedArea (lat tract) (lon tract) = false
           /\ isCoastal (lat tract) (lon tract) = true)
   /\ (calculateTrend tract = slight_decline
       <-> isUrbanArea (lat tract) (lon tract) = false
           /\ isProtectedArea (lat tract) (lon tract) = false
           /\ isCoastal (lat tract) (lon tract) = false))
  /\ (forall t regionalFactor urbanPressure,
        calculateAnnualDecline t regionalFactor urbanPressure
        = Spec.baseDeclineForTrend t + regionalFactor + urbanPressure)
  /\ projectScore tract years
     == Spec.clamp
          (or_default (ecoScore tract) 50
           + (Spec.baseDeclineForTrend (calculateTrend tract)
              + getRegionalTrendFactor tract + getUrbanPressureFactor tract)
             * years)
          0 100
  /\ (predictions !! cacheKey tract years = None ->
      forall p, p = fst (predictFutureEcoScore predictions tract years) ->
        trend p = calculateTrend tract
        /\ regionalFactor p = getRegionalTrendFactor tract
        /\ urbanPressure p = getUrbanPressureFactor tract
        /\ annualDecline p
           = Spec.baseDeclineForTrend (trend p)
             + regionalFactor p + urbanPressure p
        /\ currentScore p = or_default (ecoScore tract) 50
        /\ projectScore tract years
           == Spec.clamp (currentScore p + annualDecline p * years) 0 100
        /\ riskLevel p
           = calculateRiskLevel (currentScore p) (projectScore tract years) years
        /\ predictedScore p = JS.Math_round (projectScore tract years)).
Proof.
  split; [apply calculateTrend_first_match |].
  split; [apply calculateAnnualDecline_sum |].
  split.
  { rewrite projectScore_clamp, calculateAnnualDecline_sum. reflexivity. }
  intros Hmiss p ->. rewrite (predictFutureEcoScore_miss _ _ _ Hmiss).
  unfold newPrediction.
  cbn [fst trend regionalFactor urbanPressure annualDecline currentScore
       riskLevel predictedScore].
  do 3 (split; [reflexivity |]).
  split; [apply calculateAnnualDecline_sum |].
  split; [reflexivity |].
  split; [apply projectScore_clamp |].
  split; reflexivity.
Qed.

Lemma trend_projection_witness :
  calculateTrend Spec.plains = slight_decline
  /\ projectScore Spec.plains 15
     == Spec.clamp (60 + (-0.5 + -0.5 + -0.3) * 15) 0 100
  /\ predictedScore (fst (predictFutureEcoScore ∅ Spec.plains 15))
     = JS.Math_round (projectScore Spec.plains 15).
Proof.
  pose proof (trend_projection ∅ Spec.plains 15) as (Htrend & _ & Hscore & Hnew).
  split; [| split].
  - apply Htrend. repeat split.
  - exact Hscore.
  - apply (Hnew (lookup_empty _) _ eq_refl).
Defined.

(** The stored score is the rounded one: on the plains tract, 15 years
    ahead, the predicted score is 40.5 and the prediction stores 41. *)
Example plains_predictedScore_rounded :
  projectScore Spec.plains 15 == 40.5
  /\ predictedScore (fst (predictFutureEcoScore ∅ Spec.plains 15)) = 41.
Proof.
  rewrite (predictFutureEcoScore_miss ∅ Spec.plains 15 (lookup_empty _)).
  split; reflexivity.
Qed.

(** The map is shared between calls: a second tract that prints the same
    key is answered with the prediction stored for the first one. *)
Example predictions_map_hit :
  predictFutureEcoScore
    (<[cacheKey Spec.plains 15 := newPrediction Spec.plains 15]> ∅)
    (mkProperties 38.5 (-98) (Some 90) None None) 15
  = (newPrediction Spec.plains 15,
     <[cacheKey Spec.plains 15 := newPrediction Spec.plains 15]> ∅).
Proof.
  apply predictFutureEcoScore_hit.
  change (cacheKey (mkProperties 38.5 (-98) (Some 90) None None) 15)
    with (cacheKey Spec.plains 15).
  apply lookup_insert_eq.
Qed.

Lemma projector_never_improves_witness :
  Spec.valid_call (Spec.plains, 15)
  /\ projectScore Spec.plains 15 <= 60
  /\ Forall Spec.no_improvement
       (fst (predictAll ∅ [(Spec.plains, 15); (Spec.plains, 15)])).
Proof.
  assert (Hcall : Spec.valid_call (Spec.plains, 15)).
  { repeat split; discriminate. }
  split; [exact Hcall | split].
  - apply (projector_never_improves Spec.plains 15 []). exact Hcall.
  - apply (projector_never_improves Spec.plains 15). repeat constructor; discriminate.
Defined.

Example plains_prediction :
  trend (newPrediction Spec.plains 15) = slight_decline
  /\ annualDecline (newPrediction Spec.plains 15) == -1.3
  /\ projectScore Spec.plains 15 == 40.5
  /\ predictedScore (newPrediction Spec.plains 15) = 41
  /\ riskLevel (newPrediction Spec.plains 15) = high.
Proof. repeat split. Qed.

End ProjectionProofs.

(* ===================================================================== *)
(** ** The end-to-end scenario at (38.5, -122.9) *)
(* ===================================================================== *)

Section SonomaScenario.

(** The location is coastal ([|lon + 122| = 0.9 < 5]); the water
    estimate at [random = 0.9] is 78, and the trend is [at_risk]. *)
Lemma sonoma_scenario_counterexample :
  EcoPercentileCalculator.isCoastalArea 38.5 (-122.9) = true
  /\ EcoPercentileCalculator.estimateWaterQualitySync 38.5 (-122.9) 0.9 == 78
  /\ SimpleAIPredictor.calculateTrend Spec.sonoma = SimpleAIPredictor.at_risk
  /\ ~ Spec.sonoma_scenario.
Proof.
  split; [reflexivity | split; [reflexivity | split; [reflexivity |]]].
  intros (_ & Hcoastal & _). discriminate Hcoastal.
Qed.

(** C1 (amended).  The location (38.5, -122.9) is outside every urban
    predicate of the source and inside its coastal predicate; for every
    draw of the random number the direct water-quality estimate is
    [70 + (random - 0.5) * 20], within 10 of 70; the direct greenspace
    estimate is within 10 of 40, namely 40 with no jitter in version 2.1
    and [40 + (random - 0.5) * 15] in the unversioned copy; and the trend
    classifier answers [at_risk]. *)
Theorem sonoma_scenario_amended (random : Q) :
  0 <= random < 1 ->
  EcoPercentileCalculator.isUrbanArea 38.5 (-122.9) = false
  /\ SpectralIndicesCalculator.isUrban 38.5 (-122.9) = false
  /\ SimpleAIPredictor.isUrbanArea 38.5 (-122.9) = false
  /\ EcoPercentileCalculator.isCoastalArea 38.5 (-122.9) = true
  /\ SpectralIndicesCalculator.isCoastal 38.5 (-122.9) = true
  /\ SimpleAIPredictor.isCoastal 38.5 (-122.9) = true
  /\ SimpleAIPredictor.calculateTrend Spec.sonoma = SimpleAIPredictor.at_risk
  /\ EcoPercentileCalculator.estimateGreenspaceSync 38.5 (-122.9) random == 40
  /\ EcoPercentileCalculator.estimateWaterQualitySync 38.5 (-122.9) random
     == 70 + (random - 0.5) * 20
  /\ 70 - 10
     <= EcoPercentileCalculator.estimateWaterQualitySync 38.5 (-122.9) random
     <= 70 + 10
  /\ EcoPercentileCalculatorUnversioned.estimateGreenspaceSync 38.5 (-122.9) random
     == 40 + (random - 0.5) * 15
  /\ 40 - 10
     <= EcoPercentileCalculatorUnversioned.estimateGreenspaceSync 38.5 (-122.9) random
     <= 40 + 10.
Proof.
  intros [Hlo Hhi].
  do 8 (split; [reflexivity |]).
  assert (Hwater :
    EcoPercentileCalculator.estimateWaterQualitySync 38.5 (-122.9) random
    == 70 + (random - 0.5) * 20).
  { unfold EcoPercentileCalculator.estimateWaterQualitySync.
    change (EcoPercentileCalculator.isUrbanArea 38.5 (-122.9)) with false.
    change (EcoPercentileCalculator.isCoastalArea 38.5 (-122.9)) with true.
    change (inBox 38.5 (-122.9) 40 50 (-125) (-100)) with false.
    cbv iota zeta. js_solve. }
  assert (Hgreen :
    EcoPercentileCalculatorUnversioned.estimateGreenspaceSync 38.5 (-122.9) random
    == 40 + (random - 0.5) * 15).
  { unfold EcoPercentileCalculatorUnversioned.estimateGreenspaceSync.
    change (EcoPercentileCalculator.isUrbanArea 38.5 (-122.9)) with false.
    change (inBox 38.5 (-122.9) 45 50 (-125) (-100)) with false.
    change (inBox 38.5 (-122.9) 30 36 (-90) (-75)) with false.
    change (inBox 38.5 (-122.9) 32 40 (-120) (-110)) with false.
    cbv iota zeta. js_solve. }
  split; [exact Hwater |].
  split; [rewrite Hwater; lra |].
  split; [exact Hgreen |].
  rewrite Hgreen. lra.
Qed.

Lemma sonoma_scenario_amended_witness :
  EcoPercentileCalculator.estimateWaterQualitySync 38.5 (-122.9) 0.25
  == 70 + (0.25 - 0.5) * 20
  /\ EcoPercentileCalculator.estimateGreenspaceSync 38.5 (-122.9) 0.25 == 40.
Proof.
  assert (H : 0 <= 0.25 < 1) by (split; [discriminate | reflexivity]).
  split; apply (sonoma_scenario_amended 0.25 H).
Defined.

End SonomaScenario.

(* ===================================================================== *)
(** ** Further properties: boxes, clamps and rounding *)
(* ===================================================================== *)

Lemma inBox_true (lat lon s n w e : Q) :
  s < lat -> lat < n -> w < lon -> lon < e -> inBox lat lon s n w e = true.
Proof.
  intros H1 H2 H3 H4. unfold inBox, JS.gt.
  destruct (lt_spec s lat); [| contradiction].
  destruct (lt_spec lat n); [| contradiction].
  destruct (lt_spec w lon); [| contradiction].
  destruct (lt_spec lon e); [reflexivity | contradiction].
Qed.

Lemma inBox_false (lat lon s n w e : Q) :
  lat <= s \/ n <= lat \/ lon <= w \/ e <= lon -> inBox lat lon s n w e = false.
Proof.
  intros H. unfold inBox, JS.gt.
  destruct (lt_spec s lat); destruct (lt_spec lat n);
    destruct (lt_spec w lon); destruct (lt_spec lon e);
    try reflexivity.
  exfalso. destruct H as [H | [H | [H | H]]]; lra.
Qed.

Lemma inBox_spec (lat lon s n w e : Q) :
  inBox lat lon s n w e = true <-> (s < lat /\ lat < n) /\ (w < lon /\ lon < e).
Proof.
  split.
  - unfold inBox, JS.gt. intros H.
    destruct (lt_spec s lat); destruct (lt_spec lat n);
      destruct (lt_spec w lon); destruct (lt_spec lon e);
      try discriminate H. auto.
  - intros [[H1 H2] [H3 H4]]. now apply inBox_true.
Qed.

(** Decide a box from the bounds at hand. *)
Ltac box_false :=
  apply inBox_false;
  first [ left; lra | right; left; lra
        | right; right; left; lra | right; right; right; lra ].

Ltac box_true := apply inBox_true; lra.

Ltac decide_boxes :=
  repeat match goal with
         | |- context [inBox ?a ?b ?s ?n ?w ?e] =>
             first [ rewrite (inBox_true a b s n w e) by lra
                   | replace (inBox a b s n w e) with false
                       by (symmetry; box_false) ]
         end.

(** [Math.max(-1, Math.min(1, x))], the clamp of every index. *)
Lemma unit_clamp_range (x : Q) :
  -1 <= JS.Math_max (-1) (JS.Math_min 1 x) <= 1.
Proof. js_solve. Qed.

Lemma unit_clamp_comp (x y : Q) :
  x == y ->
  JS.Math_max (-1) (JS.Math_min 1 x) == JS.Math_max (-1) (JS.Math_min 1 y).
Proof. intros H. js_solve. Qed.

Lemma unit_clamp_opp (x : Q) :
  JS.Math_max (-1) (JS.Math_min 1 (- x))
  == - JS.Math_max (-1) (JS.Math_min 1 x).
Proof. js_solve. Qed.

Lemma unit_clamp_inert (x : Q) :
  -1 <= x <= 1 -> JS.Math_max (-1) (JS.Math_min 1 x) == x.
Proof. intros [H1 H2]. js_solve. Qed.

Lemma score_clamp_range (x : Q) :
  0 <= JS.Math_max 0 (JS.Math_min 100 x) <= 100.
Proof. js_solve. Qed.

Lemma score_clamp_inert (x : Q) :
  0 <= x <= 100 -> JS.Math_max 0 (JS.Math_min 100 x) == x.
Proof. intros [H1 H2]. js_solve. Qed.

Lemma score_clamp_mono (x y : Q) :
  x <= y ->
  JS.Math_max 0 (JS.Math_min 100 x) <= JS.Math_max 0 (JS.Math_min 100 y).
Proof. intros H. js_solve. Qed.

Lemma Math_round_mono (x y : Q) :
  x <= y -> JS.Math_round x <= JS.Math_round y.
Proof.
  intros H. unfold JS.Math_round. rewrite <- Zle_Qle.
  apply Qfloor_resp_le. lra.
Qed.

Lemma Math_round_integer (x : Q) : Props.integer (JS.Math_round x).
Proof. exists (Qfloor (x + 0.5)). reflexivity. Qed.

Lemma Math_round_range (lo hi : Z) (q : Q) :
  inject_Z lo <= q <= inject_Z hi ->
  inject_Z lo <= JS.Math_round q <= inject_Z hi.
Proof.
  intros [H1 H2]. split.
  - rewrite <- (Math_round_int lo). now apply Math_round_mono.
  - rewrite <- (Math_round_int hi). now apply Math_round_mono.
Qed.

(* ===================================================================== *)
(** ** Further properties of the index calculator *)
(* ===================================================================== *)

Section SpectralIndexExtras.

Import SpectralIndicesCalculator.

(** X1.  Every index function returns a value in [-1, 1] whatever its
    arguments, a zero denominator included, so the five indices of any
    band sample lie in [-1, 1]. *)
Theorem indices_in_unit_range
    (red green blue nir swir L : Q) (bands : Bands) :
  (-1 <= calculateNDWI green nir <= 1
   /\ -1 <= calculateMNDWI green swir <= 1
   /\ -1 <= calculateEVI red nir blue <= 1
   /\ -1 <= calculateSAVI red nir L <= 1)
  /\ (-1 <= ndvi (calculateAllIndices bands) <= 1
      /\ -1 <= ndwi (calculateAllIndices bands) <= 1
      /\ -1 <= mndwi (calculateAllIndices bands) <= 1
      /\ -1 <= evi (calculateAllIndices bands) <= 1
      /\ -1 <= savi (calculateAllIndices bands) <= 1).
Proof.
  assert (Hndvi : forall r n, -1 <= calculateNDVI r n <= 1).
  { intros r n. unfold calculateNDVI.
    destruct (strict_eq_spec (n + r) 0); [lra | apply unit_clamp_range]. }
  assert (Hndwi : forall g n, -1 <= calculateNDWI g n <= 1).
  { intros g n. unfold calculateNDWI.
    destruct (strict_eq_spec (g + n) 0); [lra | apply unit_clamp_range]. }
  assert (Hmndwi : forall g w, -1 <= calculateMNDWI g w <= 1).
  { intros g w. unfold calculateMNDWI.
    destruct (strict_eq_spec (g + w) 0); [lra | apply unit_clamp_range]. }
  assert (Hevi : forall r n b, -1 <= calculateEVI r n b <= 1).
  { intros r n b. unfold calculateEVI. cbv zeta.
    destruct (strict_eq_spec (n + 6 * r - 7.5 * b + 1) 0);
      [lra | apply unit_clamp_range]. }
  assert (Hsavi : forall r n l, -1 <= calculateSAVI r n l <= 1).
  { intros r n l. unfold calculateSAVI. cbv zeta.
    destruct (strict_eq_spec (n + r + l) 0); [lra | apply unit_clamp_range]. }
  unfold calculateAllIndices. cbn [ndvi ndwi mndwi evi savi].
  split.
  - split; [apply Hndwi | split; [apply Hmndwi | split; [apply Hevi | apply Hsavi]]].
  - split; [apply Hndvi |].
    split; [apply Hndwi | split; [apply Hmndwi | split; [apply Hevi | apply Hsavi]]].
Qed.

(** X2.  The water index is the vegetation index with its sign changed:
    [calculateNDWI(green, nir)] is [-calculateNDVI(green, nir)], and
    exchanging the two arguments of [calculateNDVI] changes its sign. *)
Theorem ndwi_negates_ndvi (green nir : Q) :
  calculateNDWI green nir == - calculateNDVI green nir
  /\ calculateNDVI nir green == - calculateNDVI green nir.
Proof.
  unfold calculateNDWI, calculateNDVI. split.
  - destruct (strict_eq_spec (green + nir) 0) as [H0 | H0];
      destruct (strict_eq_spec (nir + green) 0) as [H1 | H1];
      try lra; try (exfalso; lra).
    rewrite <- unit_clamp_opp. apply unit_clamp_comp. field.
    first [exact H0 | exact H1 | split; assumption].
  - destruct (strict_eq_spec (green + nir) 0) as [H0 | H0];
      destruct (strict_eq_spec (nir + green) 0) as [H1 | H1];
      try lra; try (exfalso; lra).
    rewrite <- unit_clamp_opp. apply unit_clamp_comp. field.
    first [exact H0 | exact H1 | split; assumption].
Qed.

(** X3.  On reflectances that are not negative and not both zero the clamp
    of [calculateNDVI] never acts: the result is the plain quotient. *)
Theorem ndvi_unclamped_on_reflectances (red nir : Q) :
  0 <= red -> 0 <= nir -> 0 < nir + red ->
  calculateNDVI red nir == (nir - red) / (nir + red).
Proof.
  intros Hr Hn Hsum. unfold calculateNDVI.
  destruct (strict_eq_spec (nir + red) 0) as [H0 | H0]; [lra |].
  apply unit_clamp_inert. split.
  - apply Qle_shift_div_l; [exact Hsum | lra].
  - apply Qle_shift_div_r; [exact Hsum | lra].
Qed.

Lemma ndvi_unclamped_on_reflectances_witness :
  calculateNDVI 0.15 0.225 == (0.225 - 0.15) / (0.225 + 0.15).
Proof.
  apply (ndvi_unclamped_on_reflectances 0.15 0.225);
    [discriminate | discriminate | reflexivity].
Defined.

Lemma ndviToGreenspace_mono (a b : Q) :
  a <= b -> ndviToGreenspace a <= ndviToGreenspace b.
Proof. intros H. unfold ndviToGreenspace. js_solve. Qed.

Lemma ndwiToWaterQuality_mono (a b : Q) :
  a <= b -> ndwiToWaterQuality a <= ndwiToWaterQuality b.
Proof. intros H. unfold ndwiToWaterQuality. js_solve. Qed.

(** X5.  Both score converters are monotone: a larger index never gives a
    smaller score. *)
Theorem score_converters_monotone (a b : Q) :
  a <= b ->
  ndviToGreenspace a <= ndviToGreenspace b
  /\ ndwiToWaterQuality a <= ndwiToWaterQuality b.
Proof.
  intros H. split;
    [now apply ndviToGreenspace_mono | now apply ndwiToWaterQuality_mono].
Qed.

Lemma score_converters_monotone_witness :
  ndviToGreenspace 0.2 <= ndviToGreenspace 0.7
  /\ ndwiToWaterQuality 0.2 <= ndwiToWaterQuality 0.7.
Proof. apply (score_converters_monotone 0.2 0.7). discriminate. Defined.

(** X6.  The water-quality converter jumps at its two thresholds: whatever
    the index, its value is never strictly between 30 and 50, nor strictly
    between 75 and 95. *)
Theorem ndwiToWaterQuality_gaps (ndwi : Q) :
  ~ (30 < ndwiToWaterQuality ndwi < 50)
  /\ ~ (75 < ndwiToWaterQuality ndwi < 95).
Proof.
  unfold ndwiToWaterQuality. split; intros [H1 H2]; js_solve.
Qed.

End SpectralIndexExtras.

(* ===================================================================== *)
(** ** Further properties of the eco-score and the percentile *)
(* ===================================================================== *)

Section PercentileExtras.

Import EcoPercentileCalculator.

Lemma count_le_bound (s : Q) (batch : list Q) :
  (Spec.count_le s batch <= length batch)%nat.
Proof. unfold Spec.count_le. apply List.filter_length_le. Qed.

Lemma count_le_mono (a b : Q) (batch : list Q) :
  a <= b -> (Spec.count_le a batch <= Spec.count_le b batch)%nat.
Proof.
  intros Hab. unfold Spec.count_le.
  induction batch as [| x rest IH]; simpl; [lia |].
  destruct (Qle_bool x a) eqn:Ea.
  - assert (Eb : Qle_bool x b = true).
    { apply Qle_bool_iff. apply Qle_bool_iff in Ea. lra. }
    rewrite Eb. simpl. lia.
  - destruct (Qle_bool x b); simpl; lia.
Qed.

(** The share [rank / N * 100] grows with the rank. *)
Lemma share_mono (r1 r2 n : nat) :
  (r1 <= r2)%nat -> (0 < n)%nat ->
  inject_Z (Z.of_nat r1) / inject_Z (Z.of_nat n) * 100
  <= inject_Z (Z.of_nat r2) / inject_Z (Z.of_nat n) * 100.
Proof.
  intros Hr Hn.
  assert (HN : 0 < inject_Z (Z.of_nat n)).
  { change 0 with (inject_Z 0). rewrite <- Zlt_Qlt. lia. }
  assert (H12 : inject_Z (Z.of_nat r1) <= inject_Z (Z.of_nat r2)).
  { rewrite <- Zle_Qle. lia. }
  apply Qmult_le_compat_r; [| discriminate].
  unfold Qdiv. apply Qmult_le_compat_r; [exact H12 |].
  apply Qlt_le_weak, Qinv_lt_0_compat, HN.
Qed.

(** X7.  The percentile is monotone in the score: within one batch a
    larger score never gets a smaller percentile. *)
Theorem calculatePercentile_monotone (a b : Q) (batch : list Q) :
  a <= b -> calculatePercentile a batch <= calculatePercentile b batch.
Proof.
  intros Hab. destruct batch as [| x rest].
  - change (50 <= 50). discriminate.
  - rewrite !calculatePercentile_nonempty by discriminate.
    apply Math_round_mono, share_mono; [now apply count_le_mono | simpl; lia].
Qed.

Lemma calculatePercentile_monotone_witness :
  calculatePercentile 10 [30; 10; 20] <= calculatePercentile 20 [30; 10; 20].
Proof. apply (calculatePercentile_monotone 10 20). discriminate. Defined.

(** X8.  Whatever the score and the batch, the percentile is a whole
    number between 0 and 100. *)
Theorem calculatePercentile_range (s : Q) (batch : list Q) :
  0 <= calculatePercentile s batch <= 100
  /\ Props.integer (calculatePercentile s batch).
Proof.
  destruct batch as [| x rest].
  - split; [split; discriminate | now exists 50%Z].
  - rewrite calculatePercentile_nonempty by discriminate.
    split; [| apply Math_round_integer].
    apply (Math_round_range 0 100).
    set (batch := x :: rest).
    assert (Hlen : (0 < length batch)%nat) by (simpl; lia).
    split.
    + change (inject_Z 0) with 0.
      apply Qmult_le_0_compat; [| discriminate].
      unfold Qdiv. apply Qmult_le_0_compat.
      * change 0 with (inject_Z 0). rewrite <- Zle_Qle. lia.
      * apply Qlt_le_weak, Qinv_lt_0_compat.
        change 0 with (inject_Z 0). rewrite <- Zlt_Qlt. lia.
    + assert (H := share_mono (Spec.count_le s batch) (length batch)
                     (length batch) (count_le_bound s batch) Hlen).
      assert (HN : ~ inject_Z (Z.of_nat (length batch)) == 0)
        by (apply batch_size_nonzero; discriminate).
      assert (E : inject_Z (Z.of_nat (length batch))
                  / inject_Z (Z.of_nat (length batch)) * 100 == 100)
        by (field; exact HN).
      change (inject_Z 100) with 100. rewrite E in H. exact H.
Qed.

(** X9.  The percentile does not depend on the order of the batch. *)
Theorem calculatePercentile_permutation (s : Q) (batch batch' : list Q) :
  Permutation batch batch' ->
  calculatePercentile s batch = calculatePercentile s batch'.
Proof.
  intros Hperm. destruct batch as [| x rest].
  - apply Permutation_nil in Hperm. now subst.
  - destruct batch' as [| y rest'].
    + apply Permutation_sym, Permutation_nil in Hperm. discriminate.
    + rewrite !calculatePercentile_nonempty by discriminate.
      unfold Spec.count_le.
      rewrite (filter_length_Permutation _ _ _ Hperm).
      now rewrite (Permutation_length Hperm).
Qed.

Lemma calculatePercentile_permutation_witness :
  calculatePercentile 20 [30; 10; 20] = calculatePercentile 20 [10; 30; 20].
Proof.
  apply (calculatePercentile_permutation 20). apply perm_swap.
Defined.

(** X10.  On two scores in [0, 100] the eco-score is their mean, with no
    clamping, and lies between them; the two arguments can always be
    exchanged. *)
Theorem calculateEcoScore_mean (waterQuality greenspace : Q) :
  0 <= waterQuality <= 100 -> 0 <= greenspace <= 100 ->
  calculateEcoScore waterQuality greenspace == (waterQuality + greenspace) / 2
  /\ Qmin waterQuality greenspace
     <= calculateEcoScore waterQuality greenspace
     <= Qmax waterQuality greenspace
  /\ calculateEcoScore waterQuality greenspace
     == calculateEcoScore greenspace waterQuality.
Proof.
  intros [Hw0 Hw1] [Hg0 Hg1].
  assert (E : forall w g, 0 <= w <= 100 -> 0 <= g <= 100 ->
            calculateEcoScore w g == (w + g) / 2).
  { intros w g [? ?] [? ?]. unfold calculateEcoScore. cbv zeta.
    rewrite score_clamp_inert by lra. field. }
  split; [apply E; lra |].
  split.
  - rewrite E by lra.
    assert (Hm : (waterQuality + greenspace) / 2
                 == (waterQuality + greenspace) * 0.5) by field.
    rewrite Hm.
    destruct (Q.min_spec waterQuality greenspace) as [[? Hmin] | [? Hmin]];
      destruct (Q.max_spec waterQuality greenspace) as [[? Hmax] | [? Hmax]];
      rewrite Hmin, Hmax; split; lra.
  - rewrite !E by lra. field.
Qed.

Lemma calculateEcoScore_mean_witness :
  calculateEcoScore 70 40 == (70 + 40) / 2.
Proof.
  apply (calculateEcoScore_mean 70 40); split; discriminate.
Defined.

(** X11.  The three water-quality scales agree: two scores get the same
    fill colour from [getWaterColor] exactly when [getQualityCategory] puts
    them in the same category, and exactly when [analyzeColor] gives them
    the same colour. *)
Theorem water_color_follows_category (q1 q2 : Q) :
  (getWaterColor q1 = getWaterColor q2
   <-> WaterQualityAnalyzer.getQualityCategory q1
       = WaterQualityAnalyzer.getQualityCategory q2)
  /\ (WaterQualityAnalyzer.color (WaterQualityAnalyzer.analyzeColor q1)
      = WaterQualityAnalyzer.color (WaterQualityAnalyzer.analyzeColor q2)
      <-> WaterQualityAnalyzer.getQualityCategory q1
          = WaterQualityAnalyzer.getQualityCategory q2).
Proof.
  assert (Hw : forall q,
            getWaterColor q
            = Props.waterColorOf (WaterQualityAnalyzer.getQualityCategory q)).
  { intros q. unfold getWaterColor, WaterQualityAnalyzer.getQualityCategory.
    repeat destruct (_ >=? _); reflexivity. }
  assert (Ha : forall q,
            WaterQualityAnalyzer.color (WaterQualityAnalyzer.analyzeColor q)
            = match WaterQualityAnalyzer.getQualityCategory q with
              | Excellent => "#0066cc"
              | Good => "#0099ff"
              | Moderate => "#00cc99"
              | Poor => "#996633"
              | VeryPoor => "#663300"
              end%string).
  { intros q.
    unfold WaterQualityAnalyzer.analyzeColor, WaterQualityAnalyzer.getQualityCategory.
    repeat destruct (_ >=? _); reflexivity. }
  rewrite !Hw, !Ha.
  destruct (WaterQualityAnalyzer.getQualityCategory q1);
    destruct (WaterQualityAnalyzer.getQualityCategory q2);
    split; split; intros H; try reflexivity; discriminate H.
Qed.

End PercentileExtras.

(* ===================================================================== *)
(** ** Further properties of the direct estimates and of [processTracts] *)
(* ===================================================================== *)

Section EstimateExtras.

Import EcoPercentileCalculator.

(** X12.  For every location and every draw the water-quality estimate
    lies in [35, 85]: the clamp to [0, 100] never acts. *)
Theorem estimateWaterQualitySync_band (lat lon random : Q) :
  Props.drawn random ->
  35 <= estimateWaterQualitySync lat lon random
  /\ estimateWaterQualitySync lat lon random <= 85.
Proof.
  intros [Hlo Hhi]. unfold estimateWaterQualitySync. cbv zeta.
  destruct (isUrbanArea lat lon); destruct (isCoastalArea lat lon);
    destruct (inBox lat lon 40 50 (-125) (-100));
    unfold JS.Math_max, JS.Math_min; repeat js_case; split; lra.
Qed.

Lemma estimateWaterQualitySync_band_witness :
  35 <= estimateWaterQualitySync 40.7 (-73.9) 0
  /\ estimateWaterQualitySync 40.7 (-73.9) 0 <= 85.
Proof.
  apply (estimateWaterQualitySync_band 40.7 (-73.9) 0).
  split; [discriminate | reflexivity].
Defined.

(** X13.  In version 2.1 the greenspace estimate of an urban location
    does not depend on the draw: it is 0 inside the Los Angeles box, where
    the desert term is cut by the urban one, and 20 inside the other three
    urban boxes. *)
Theorem estimateGreenspaceSync_urban (lat lon random : Q) :
  Props.drawn random ->
  isUrbanArea lat lon = true ->
  (inBox lat lon 34 35 (-119) (-118) = true ->
   estimateGreenspaceSync lat lon random == 0)
  /\ (inBox lat lon 34 35 (-119) (-118) = false ->
      estimateGreenspaceSync lat lon random == 20).
Proof.
  intros [Hlo Hhi] Hurban. unfold estimateGreenspaceSync. cbv zeta.
  rewrite Hurban. split.
  - intros Hla. apply inBox_spec in Hla. destruct Hla as [[? ?] [? ?]].
    decide_boxes. simpl. unfold JS.Math_max, JS.Math_min.
    repeat js_case; lra.
  - intros Hla. unfold isUrbanArea in Hurban. rewrite Hla in Hurban.
    rewrite !orb_true_iff in Hurban.
    destruct Hurban as [[[H | H] | H] | H]; try discriminate H;
      apply inBox_spec in H; destruct H as [[? ?] [? ?]];
      decide_boxes; reflexivity.
Qed.

Lemma estimateGreenspaceSync_urban_witness :
  estimateGreenspaceSync 34.05 (-118.25) 0.9 == 0
  /\ estimateGreenspaceSync 40.7 (-73.9) 0.9 == 20.
Proof.
  assert (Hd : Props.drawn 0.9) by (split; [discriminate | reflexivity]).
  split.
  - apply (estimateGreenspaceSync_urban 34.05 (-118.25) 0.9 Hd); reflexivity.
  - apply (estimateGreenspaceSync_urban 40.7 (-73.9) 0.9 Hd); reflexivity.
Defined.

Lemma scoreTract_well (random : nat -> Q) (n : nat) (tract : Location) :
  location (fst (scoreTract random n tract)) = tract
  /\ 0 <= waterQuality (fst (scoreTract random n tract)) <= 100
  /\ 0 <= greenspace (fst (scoreTract random n tract)) <= 100
  /\ 0 <= ecoScore (fst (scoreTract random n tract)) <= 100
  /\ ecoScore (fst (scoreTract random n tract))
     == (waterQuality (fst (scoreTract random n tract))
         + greenspace (fst (scoreTract random n tract))) / 2.
Proof.
  unfold scoreTract.
  cbn [fst location waterQuality greenspace ecoScore].
  set (w := estimateWaterQualitySync (lat tract) (lon tract) (random n)).
  set (g := estimateGreenspaceSync (lat tract) (lon tract) (random (S n))).
  assert (Hw : 0 <= w <= 100) by apply score_clamp_range.
  assert (Hg : 0 <= g <= 100) by apply score_clamp_range.
  split; [reflexivity |]. split; [exact Hw |]. split; [exact Hg |].
  split; [apply score_clamp_range |].
  unfold calculateEcoScore. cbv zeta.
  rewrite score_clamp_inert by lra. field.
Qed.

Lemma scoreTracts_well (random : nat -> Q) (tracts : list Location) (n : nat) :
  map location (fst (scoreTracts random n tracts)) = tracts
  /\ Forall
       (fun t =>
          0 <= waterQuality t <= 100
          /\ 0 <= greenspace t <= 100
          /\ 0 <= ecoScore t <= 100
          /\ ecoScore t == (waterQuality t + greenspace t) / 2
          /\ waterColor t = getWaterColor (waterQuality t)
          /\ greenspaceColor t = getGreenspaceColor (greenspace t))
       (fst (scoreTracts random n tracts))
  /\ (n + length tracts <= snd (scoreTracts random n tracts)
      <= n + 2 * length tracts)%nat.
Proof.
  revert n. induction tracts as [| tract rest IH]; intros n.
  - simpl. split; [reflexivity | split; [constructor | lia]].
  - cbn [scoreTracts].
    pose proof (scoreTract_well random n tract) as (Hloc & Hw & Hg & He & Hm).
    assert (Hn : snd (scoreTract random n tract)
                 = (S n + greenspaceDraws (lat tract) (lon tract))%nat)
      by reflexivity.
    assert (Hc : waterColor (fst (scoreTract random n tract))
                 = getWaterColor (waterQuality (fst (scoreTract random n tract)))
                 /\ greenspaceColor (fst (scoreTract random n tract))
                    = getGreenspaceColor
                        (greenspace (fst (scoreTract random n tract))))
      by (split; reflexivity).
    assert (Hd : (greenspaceDraws (lat tract) (lon tract) <= 1)%nat).
    { unfold greenspaceDraws. destruct (_ || _); lia. }
    destruct (scoreTract random n tract) as [scored n'].
    cbn [fst snd] in *.
    specialize (IH n'). destruct (scoreTracts random n' rest) as [others n''].
    cbn [fst snd map length] in *.
    destruct IH as (IHloc & IHall & IHn).
    split; [now rewrite Hloc, IHloc |].
    split; [constructor; [tauto | exact IHall] | lia].
Qed.

Lemma processTracts_well
    (random : nat -> Q) (n : nat) (tracts : list Location) :
  map location (fst (fst (processTracts random n tracts))) = tracts
  /\ snd (fst (processTracts random n tracts))
     = map ecoScore (fst (fst (processTracts random n tracts)))
  /\ Forall (Props.scoredWell (snd (fst (processTracts random n tracts))))
       (fst (fst (processTracts random n tracts)))
  /\ (n + length tracts <= snd (processTracts random n tracts)
      <= n + 2 * length tracts)%nat.
Proof.
  unfold processTracts.
  pose proof (scoreTracts_well random tracts n) as (Hloc & Hall & Hn).
  destruct (scoreTracts random n tracts) as [scored n'].
  cbn [fst snd] in *.
  split; [| split; [| split; [| exact Hn]]].
  - rewrite List.map_map. exact Hloc.
  - rewrite List.map_map. reflexivity.
  - apply List.Forall_map. eapply List.Forall_impl; [| exact Hall].
    intros t (Hw & Hg & He & Hm & Hc1 & Hc2).
    unfold Props.scoredWell, setPercentile.
    cbn [waterQuality greenspace ecoScore waterColor greenspaceColor ecoPercentile].
    repeat split; try tauto.
Qed.


(** X14.  [processTracts] keeps the tracts and their order, stores their
    eco-scores in [allScores], and leaves every tract with water quality,
    greenspace and eco-score in [0, 100], the eco-score being the mean of
    the other two, the two colours taken from these scores, and the
    percentile of its eco-score within the batch; it draws between one and
    two random numbers per tract.  This holds for every random source. *)
Theorem processTracts_invariants
    (random : nat -> Q) (n : nat) (tracts : list Location) :
  map location (fst (fst (processTracts random n tracts))) = tracts
  /\ snd (fst (processTracts random n tracts))
     = map ecoScore (fst (fst (processTracts random n tracts)))
  /\ Forall (Props.scoredWell (snd (fst (processTracts random n tracts))))
       (fst (fst (processTracts random n tracts)))
  /\ (n + length tracts <= snd (processTracts random n tracts)
      <= n + 2 * length tracts)%nat.
Proof. apply processTracts_well. Qed.

(** X15.  In a processed batch a tract whose eco-score no other tract
    exceeds has percentile 100, and a tract with the larger eco-score never
    has the smaller percentile. *)
Theorem processTracts_ranking
    (random : nat -> Q) (n : nat) (tracts : list Location)
    (t u : ScoredTract) :
  In t (fst (fst (processTracts random n tracts))) ->
  In u (fst (fst (processTracts random n tracts))) ->
  ((forall v, In v (fst (fst (processTracts random n tracts))) ->
              ecoScore v <= ecoScore t) ->
   ecoPercentile t = Some 100)
  /\ (ecoScore t <= ecoScore u ->
      exists pt pu,
        ecoPercentile t = Some pt /\ ecoPercentile u = Some pu /\ pt <= pu).
Proof.
  intros Ht Hu.
  pose proof (processTracts_well random n tracts) as (_ & Hall & Hwell & _).
  rewrite List.Forall_forall in Hwell.
  set (out := fst (fst (processTracts random n tracts))) in *.
  set (allScores := snd (fst (processTracts random n tracts))) in *.
  assert (Hpt : ecoPercentile t = Some (calculatePercentile (ecoScore t) allScores)).
  { apply (Hwell t Ht). }
  assert (Hpu : ecoPercentile u = Some (calculatePercentile (ecoScore u) allScores)).
  { apply (Hwell u Hu). }
  split.
  - intros Hmax. rewrite Hpt. f_equal.
    assert (Hne : allScores <> []).
    { rewrite Hall. destruct out; [contradiction | discriminate]. }
    rewrite (calculatePercentile_nonempty _ _ Hne).
    rewrite count_le_all.
    + transitivity (JS.Math_round 100); [| exact (Math_round_int 100)].
      apply Math_round_comp. field. now apply batch_size_nonzero.
    + intros x Hx. rewrite Hall in Hx. apply in_map_iff in Hx.
      destruct Hx as (v & <- & Hv). now apply Hmax.
  - intros Hle. exists (calculatePercentile (ecoScore t) allScores),
                  (calculatePercentile (ecoScore u) allScores).
    split; [exact Hpt | split; [exact Hpu |]].
    destruct allScores as [| x rest].
    + change (50 <= 50). discriminate.
    + rewrite !calculatePercentile_nonempty by discriminate.
      apply Math_round_mono, share_mono; [now apply count_le_mono | simpl; lia].
Qed.

Lemma processTracts_ranking_witness :
  exists t,
    In t (fst (fst (processTracts (fun _ => 0.5) 0
                      [mkLocation 38.5 (-122.9); mkLocation 40.7 (-73.9)])))
    /\ ecoScore t == 55
    /\ ecoPercentile t = Some 100.
Proof.
  set (out := fst (fst (processTracts (fun _ => 0.5) 0
                          [mkLocation 38.5 (-122.9); mkLocation 40.7 (-73.9)]))).
  assert (Hout : exists t1 t2,
            out = [t1; t2] /\ ecoScore t1 == 55 /\ ecoScore t2 <= ecoScore t1).
  { eexists. eexists. split; [reflexivity |].
    split; vm_compute; [reflexivity | discriminate]. }
  destruct Hout as (t1 & t2 & Hout & H55 & Hle).
  assert (Hin : In t1 out) by (rewrite Hout; now left).
  exists t1. split; [exact Hin | split; [exact H55 |]].
  apply (processTracts_ranking (fun _ => 0.5) 0
           [mkLocation 38.5 (-122.9); mkLocation 40.7 (-73.9)] t1 t1 Hin Hin).
  fold out. rewrite Hout. intros v [<- | [<- | []]]; [lra | exact Hle].
Defined.

End EstimateExtras.

(* ===================================================================== *)
(** ** Further properties of the trend projector *)
(* ===================================================================== *)

Section PredictorExtras.

Import SimpleAIPredictor.

(** A property that every new prediction has, for the calls admitted by
    [V], holds of every prediction a run returns and of the map. *)
Lemma predictAll_invariant
    (P : Prediction -> Prop) (V : Properties * Q -> Prop) :
  (forall tract years, V (tract, years) -> P (newPrediction tract years)) ->
  forall (calls : list (Properties * Q)) (predictions : gmap CacheKey Prediction),
    map_Forall (fun _ p => P p) predictions ->
    List.Forall V calls ->
    List.Forall P (fst (predictAll predictions calls))
    /\ map_Forall (fun _ p => P p) (snd (predictAll predictions calls)).
Proof.
  intros Hnew calls.
  induction calls as [| [tract years] rest IH]; intros predictions Hinv Hcalls.
  - split; [constructor | exact Hinv].
  - inversion Hcalls as [| c cs Hcall Hrest]; subst.
    cbn [predictAll]. unfold predictFutureEcoScore. cbv zeta.
    destruct (predictions !! cacheKey tract years) as [p |] eqn:Hkey.
    + destruct (IH predictions Hinv Hrest) as [IH1 IH2].
      destruct (predictAll predictions rest) as [ps final].
      cbn [fst snd] in *. split; [| exact IH2].
      constructor; [| exact IH1].
      exact (map_Forall_lookup_1 _ _ _ _ Hinv Hkey).
    + assert (Hinv' : map_Forall (fun _ p => P p)
                        (<[cacheKey tract years := newPrediction tract years]>
                           predictions)).
      { apply map_Forall_insert_2; [now apply Hnew | exact Hinv]. }
      destruct (IH _ Hinv' Hrest) as [IH1 IH2].
      destruct (predictAll _ rest) as [ps final].
      cbn [fst snd] in *. split; [| exact IH2].
      constructor; [now apply Hnew | exact IH1].
Qed.

Lemma predictAll_length
    (calls : list (Properties * Q)) (predictions : gmap CacheKey Prediction) :
  length (fst (predictAll predictions calls)) = length calls.
Proof.
  revert predictions. induction calls as [| [tract years] rest IH];
    intros predictions; [reflexivity |].
  cbn [predictAll].
  destruct (predictFutureEcoScore predictions tract years) as [p predictions'].
  specialize (IH predictions').
  destruct (predictAll predictions' rest) as [ps final].
  cbn [fst length] in *. now rewrite IH.
Qed.

Lemma projectScore_range (tract : Properties) (years : Q) :
  0 <= projectScore tract years <= 100.
Proof. unfold projectScore. cbv zeta. apply score_clamp_range. Qed.

Lemma newPrediction_wellFormed (tract : Properties) (years : Q) :
  Props.wellFormed (newPrediction tract years).
Proof.
  unfold Props.wellFormed, newPrediction.
  cbn [predictedScore needsAction riskLevel annualDecline trend
       regionalFactor urbanPressure].
  split; [split |]; [| | split].
  - apply (Math_round_range 0 100), projectScore_range.
  - apply Math_round_integer.
  - destruct (calculateRiskLevel _ _ _); simpl; split; intros H;
      try discriminate H; try reflexivity; auto;
      destruct H as [H | H]; discriminate H.
  - rewrite calculateAnnualDecline_sum. reflexivity.
Qed.

(** X16.  Every prediction a predictor returns, over any run of calls from
    a fresh instance and whatever the tracts and the years, has a whole
    [predictedScore] in [0, 100], has [needsAction] set exactly when its
    risk level is critical or high, and has its [annualDecline] equal to the
    base decline of its trend plus its two stored factors. *)
Theorem predictions_well_formed (calls : list (Properties * Q)) :
  List.Forall Props.wellFormed (fst (predictAll ∅ calls)).
Proof.
  apply (predictAll_invariant Props.wellFormed (fun _ => True)).
  - intros tract years _. apply newPrediction_wellFormed.
  - apply map_Forall_empty.
  - apply List.Forall_forall. trivial.
Qed.

(** X17.  The first call for a key fixes the answer for that key: any
    later call whose tract and years print the same key, the same call
    repeated in particular, returns the stored prediction and leaves the
    map as it is, whatever the eco-score of the later tract. *)
Theorem predictFutureEcoScore_same_key
    (predictions : gmap CacheKey Prediction)
    (tract tract' : Properties) (years years' : Q) :
  cacheKey tract' years' = cacheKey tract years ->
  predictFutureEcoScore
    (snd (predictFutureEcoScore predictions tract years)) tract' years'
  = predictFutureEcoScore predictions tract years.
Proof.
  intros Hkey. unfold predictFutureEcoScore at 2 3. cbv zeta.
  destruct (predictions !! cacheKey tract years) as [p |] eqn:Hlook;
    cbn [snd].
  - apply predictFutureEcoScore_hit. now rewrite Hkey.
  - apply predictFutureEcoScore_hit. rewrite Hkey. apply lookup_insert_eq.
Qed.

Lemma predictFutureEcoScore_same_key_witness :
  predictFutureEcoScore
    (snd (predictFutureEcoScore ∅ Spec.plains 15))
    (mkProperties 38.50004 (-98.00001) (Some 90) None None) 15
  = predictFutureEcoScore ∅ Spec.plains 15.
Proof.
  apply (predictFutureEcoScore_same_key ∅ Spec.plains
           (mkProperties 38.50004 (-98.00001) (Some 90) None None) 15 15).
  reflexivity.
Defined.

(** The booleans the risk cascade tests. *)
Lemma calculateRiskLevel_cases (c p y : Q) :
  ((p <? 30) = true \/ JS.number_gt (JS.div (c - p) y) 2 = true ->
   calculateRiskLevel c p y = critical)
  /\ ((p <? 50) = true \/ JS.number_gt (JS.div (c - p) y) 1.5 = true ->
      calculateRiskLevel c p y = critical \/ calculateRiskLevel c p y = high)
  /\ (JS.number_gt (JS.div (c - p) y) 0.5 = true ->
      calculateRiskLevel c p y <> low).
Proof.
  unfold calculateRiskLevel. cbv zeta.
  destruct (p <? 30); destruct (p <? 50);
    destruct (JS.number_gt (JS.div (c - p) y) 2);
    destruct (JS.number_gt (JS.div (c - p) y) 1.5);
    destruct (JS.number_gt (JS.div (c - p) y) 0.5);
    simpl; repeat split; intros H; try discriminate;
    try (destruct H as [H | H]; discriminate H); auto.
Qed.

(** With a start in [0, 100], a yearly decline below [-k] and at least one
    year, the projected score is below 30 or the decline rate exceeds
    [k]. *)
Lemma decline_rate_exceeds (c d y k : Q) :
  0 <= c <= 100 -> 1 <= y -> d < - k -> 0 <= k ->
  (JS.Math_max 0 (JS.Math_min 100 (c + d * y)) <? 30) = true
  \/ JS.number_gt
       (JS.div (c - JS.Math_max 0 (JS.Math_min 100 (c + d * y))) y) k = true.
Proof.
  intros [Hc0 Hc1] Hy Hd Hk.
  assert (Hdy : d * y <= d) by nra.
  set (x := c + d * y) in *.
  assert (Hx100 : x <= 100) by (unfold x; lra).
  destruct (Qlt_le_dec x 30) as [Hx | Hx].
  - left. destruct (lt_spec (JS.Math_max 0 (JS.Math_min 100 x)) 30) as [_ | Hn];
      [reflexivity |].
    exfalso. apply Hn. js_solve.
  - right.
    assert (Hps : JS.Math_max 0 (JS.Math_min 100 x) == x)
      by (apply score_clamp_inert; lra).
    apply number_gt_finite; [lra |].
    assert (Hrate : (c - JS.Math_max 0 (JS.Math_min 100 x)) / y == - d).
    { rewrite Hps. unfold x. field. lra. }
    rewrite Hrate. lra.
Qed.

Lemma newPrediction_risk (tract : Properties) (years k : Q) :
  Spec.valid_call (tract, years) ->
  calculateAnnualDecline (calculateTrend tract)
    (getRegionalTrendFactor tract) (getUrbanPressureFactor tract) < - k ->
  0 <= k ->
  (projectScore tract years <? 30) = true
  \/ JS.number_gt
       (JS.div (or_default (ecoScore tract) 50 - projectScore tract years) years)
       k = true.
Proof.
  intros [Hc Hy] Hd Hk. simpl in Hc, Hy.
  unfold projectScore. cbv zeta. now apply decline_rate_exceeds.
Qed.

Lemma newPrediction_never_low (tract : Properties) (years : Q) :
  Spec.valid_call (tract, years) -> riskLevel (newPrediction tract years) <> low.
Proof.
  intros Hcall. unfold newPrediction. cbn [riskLevel].
  pose proof (annualDecline_range tract) as [_ Hhi].
  destruct (newPrediction_risk tract years 0.5 Hcall) as [H | H];
    [lra | discriminate | |].
  - assert (Hc : calculateRiskLevel (or_default (ecoScore tract) 50)
                   (projectScore tract years) years = critical)
      by (apply calculateRiskLevel_cases; now left).
    rewrite Hc. discriminate.
  - now apply calculateRiskLevel_cases.
Qed.

(** X18.  The projector never reports a low risk: over any run of calls
    with a current score in [0, 100] and at least one year ahead, every
    returned prediction is critical, high or moderate. *)
Theorem risk_is_never_low (calls : list (Properties * Q)) :
  List.Forall Spec.valid_call calls ->
  List.Forall (fun p => riskLevel p <> low) (fst (predictAll ∅ calls)).
Proof.
  intros Hcalls.
  apply (predictAll_invariant (fun p => riskLevel p <> low) Spec.valid_call).
  - intros tract years. apply newPrediction_never_low.
  - apply map_Forall_empty.
  - exact Hcalls.
Qed.

Lemma risk_is_never_low_witness :
  List.Forall (fun p => riskLevel p <> low)
    (fst (predictAll ∅ [(Spec.plains, 15); (Spec.sonoma, 1)])).
Proof.
  apply (risk_is_never_low [(Spec.plains, 15); (Spec.sonoma, 1)]).
  repeat constructor; discriminate.
Defined.

(** X19.  A newly computed prediction for a tract in one of the urban
    boxes is critical and needs action, whatever its current score in
    [0, 100] and for any horizon of at least one year. *)
Theorem urban_tract_is_critical
    (predictions : gmap CacheKey Prediction) (tract : Properties) (years : Q) :
  predictions !! cacheKey tract years = None ->
  Spec.valid_call (tract, years) ->
  isUrbanArea (lat tract) (lon tract) = true ->
  riskLevel (fst (predictFutureEcoScore predictions tract years)) = critical
  /\ needsAction (fst (predictFutureEcoScore predictions tract years)) = true.
Proof.
  intros Hmiss Hcall Hurban.
  rewrite (predictFutureEcoScore_miss _ _ _ Hmiss).
  unfold newPrediction. cbn [fst riskLevel needsAction].
  assert (Hcrit : calculateRiskLevel (or_default (ecoScore tract) 50)
                    (projectScore tract years) years = critical).
  { apply calculateRiskLevel_cases.
    apply (newPrediction_risk tract years 2 Hcall); [| discriminate].
    rewrite calculateAnnualDecline_sum.
    pose proof (getRegionalTrendFactor_range tract) as [_ Hreg].
    unfold calculateTrend, getUrbanPressureFactor. cbv zeta.
    rewrite Hurban. simpl. lra. }
  rewrite Hcrit. split; reflexivity.
Qed.

Lemma urban_tract_is_critical_witness :
  riskLevel
    (fst (predictFutureEcoScore ∅
            (mkProperties 40.7 (-73.9) (Some 95) None None) 1))
  = critical.
Proof.
  apply (urban_tract_is_critical ∅
           (mkProperties 40.7 (-73.9) (Some 95) None None) 1).
  - apply lookup_empty.
  - repeat split; discriminate.
  - reflexivity.
Defined.

End PredictorExtras.

Section WorstTractsExtras.

Import SimpleAIPredictor.

Lemma number_gt_mono (a a' y k : Q) :
  0 < y -> a <= a' ->
  JS.number_gt (JS.div a y) k = true -> JS.number_gt (JS.div a' y) k = true.
Proof.
  intros Hy Ha H.
  apply number_gt_finite in H; [| lra]. apply number_gt_finite; [lra |].
  apply Qlt_le_trans with (a / y); [exact H |].
  unfold Qdiv. apply Qmult_le_compat_r; [exact Ha |].
  apply Qlt_le_weak, Qinv_lt_0_compat, Hy.
Qed.

(** X20.  The risk level is monotone in the predicted score: with the
    current score and a positive horizon fixed, a lower predicted score is
    never given a milder level. *)
Theorem calculateRiskLevel_monotone (currentScore p1 p2 yearsAhead : Q) :
  0 < yearsAhead -> p1 <= p2 ->
  riskOrder (calculateRiskLevel currentScore p1 yearsAhead)
  <= riskOrder (calculateRiskLevel currentScore p2 yearsAhead).
Proof.
  intros Hy Hp.
  assert (Hg : forall k,
            JS.number_gt (JS.div (currentScore - p2) yearsAhead) k = true ->
            JS.number_gt (JS.div (currentScore - p1) yearsAhead) k = true).
  { intros k. apply number_gt_mono; [exact Hy | lra]. }
  assert (Hlt : forall k, (p2 <? k) = true -> (p1 <? k) = true).
  { intros k H. destruct (lt_spec p2 k); [| discriminate].
    destruct (lt_spec p1 k); [reflexivity | exfalso; lra]. }
  unfold calculateRiskLevel. cbv zeta.
  pose proof (Hlt 30) as H30. pose proof (Hlt 50) as H50.
  pose proof (Hg 2) as G2. pose proof (Hg 1.5) as G15. pose proof (Hg 0.5) as G05.
  destruct (p2 <? 30);
    [rewrite (H30 eq_refl) | destruct (p1 <? 30)];
    (destruct (JS.number_gt (JS.div (currentScore - p2) yearsAhead) 2);
     [rewrite (G2 eq_refl)
     | destruct (JS.number_gt (JS.div (currentScore - p1) yearsAhead) 2)]);
    (destruct (p2 <? 50);
     [rewrite (H50 eq_refl) | destruct (p1 <? 50)]);
    (destruct (JS.number_gt (JS.div (currentScore - p2) yearsAhead) 1.5);
     [rewrite (G15 eq_refl)
     | destruct (JS.number_gt (JS.div (currentScore - p1) yearsAhead) 1.5)]);
    (destruct (JS.number_gt (JS.div (currentScore - p2) yearsAhead) 0.5);
     [rewrite (G05 eq_refl)
     | destruct (JS.number_gt (JS.div (currentScore - p1) yearsAhead) 0.5)]);
    simpl; discriminate.
Qed.

Lemma calculateRiskLevel_monotone_witness :
  riskOrder (calculateRiskLevel 60 25 15) <= riskOrder (calculateRiskLevel 60 55 15).
Proof.
  apply (calculateRiskLevel_monotone 60 25 55 15); [reflexivity | discriminate].
Defined.

(** The comparator orders by risk first and by predicted score second. *)
Lemma compareWorst_spec (a b : Properties * Prediction) :
  compareWorst a b <= 0
  <-> riskOrder (riskLevel (snd a)) < riskOrder (riskLevel (snd b))
      \/ (riskOrder (riskLevel (snd a)) == riskOrder (riskLevel (snd b))
          /\ predictedScore (snd a) <= predictedScore (snd b)).
Proof.
  unfold compareWorst. cbv zeta.
  destruct (strict_eq_spec
              (riskOrder (riskLevel (snd a)) - riskOrder (riskLevel (snd b))) 0)
    as [H0 | H0]; simpl; split; intros H.
  - right. split; lra.
  - destruct H as [H | [_ H]]; lra.
  - left. lra.
  - destruct H as [H | [H _]]; lra.
Qed.

Lemma worstFirst_total (a b : Properties * Prediction) :
  Props.worstFirst a b \/ Props.worstFirst b a.
Proof.
  unfold Props.worstFirst. rewrite !compareWorst_spec.
  destruct (Qlt_le_dec (riskOrder (riskLevel (snd a)))
              (riskOrder (riskLevel (snd b)))) as [H | H]; [left; left; exact H |].
  destruct (Qlt_le_dec (riskOrder (riskLevel (snd b)))
              (riskOrder (riskLevel (snd a)))) as [H' | H']; [right; left; exact H' |].
  destruct (Qlt_le_dec (predictedScore (snd b)) (predictedScore (snd a))).
  - right. right. split; lra.
  - left. right. split; lra.
Qed.

Lemma worstFirst_trans (a b c : Properties * Prediction) :
  Props.worstFirst a b -> Props.worstFirst b c -> Props.worstFirst a c.
Proof.
  unfold Props.worstFirst. rewrite !compareWorst_spec.
  intros [H1 | [H1 H1']] [H2 | [H2 H2']].
  - left. lra.
  - left. lra.
  - left. lra.
  - right. split; lra.
Qed.

Section StableSort.

Context {A : Type} (compare : A -> A -> Q).
Hypothesis compare_total :
  forall a b, compare a b <= 0 \/ compare b a <= 0.
Hypothesis compare_trans :
  forall a b c, compare a b <= 0 -> compare b c <= 0 -> compare a c <= 0.

Lemma insertBy_Permutation (x : A) (l : list A) :
  Permutation (insertBy compare x l) (x :: l).
Proof.
  induction l as [| y rest IH]; simpl; [reflexivity |].
  destruct (compare x y <=? 0); [reflexivity |].
  rewrite IH. apply perm_swap.
Qed.

Lemma sortBy_Permutation (l : list A) : Permutation (sortBy compare l) l.
Proof.
  induction l as [| x rest IH]; simpl; [reflexivity |].
  rewrite insertBy_Permutation. now constructor.
Qed.

Lemma insertBy_sorted (x : A) (l : list A) :
  StronglySorted (fun a b => compare a b <= 0) l ->
  StronglySorted (fun a b => compare a b <= 0) (insertBy compare x l).
Proof.
  induction l as [| y rest IH]; intros Hs; simpl.
  - constructor; constructor.
  - apply StronglySorted_inv in Hs. destruct Hs as [Hrest Hy].
    destruct (le_spec (compare x y) 0) as [Hxy | Hxy].
    + constructor; [constructor; assumption |].
      constructor; [exact Hxy |].
      rewrite List.Forall_forall in *. intros z Hz.
      apply compare_trans with y; [exact Hxy | now apply Hy].
    + constructor; [now apply IH |].
      rewrite List.Forall_forall in *. intros z Hz.
      apply (Permutation_in _ (insertBy_Permutation x rest)) in Hz.
      destruct Hz as [<- | Hz]; [| now apply Hy].
      destruct (compare_total x y); [contradiction | assumption].
Qed.

Lemma sortBy_sorted (l : list A) :
  StronglySorted (fun a b => compare a b <= 0) (sortBy compare l).
Proof.
  induction l as [| x rest IH]; simpl; [constructor |].
  now apply insertBy_sorted.
Qed.

Lemma filter_sorted (f : A -> bool) (l : list A) :
  StronglySorted (fun a b => compare a b <= 0) l ->
  StronglySorted (fun a b => compare a b <= 0) (List.filter f l).
Proof.
  induction l as [| x rest IH]; intros Hs; simpl; [constructor |].
  apply StronglySorted_inv in Hs. destruct Hs as [Hrest Hx].
  destruct (f x); [| now apply IH].
  constructor; [now apply IH |].
  rewrite List.Forall_forall in *. intros z Hz.
  apply List.filter_In in Hz. now apply Hx.
Qed.

End StableSort.

Lemma filter_Permutation {A : Type} (f : A -> bool) (l l' : list A) :
  Permutation l l' -> Permutation (List.filter f l) (List.filter f l').
Proof.
  induction 1 as [| x l l' _ IH | x y l | l l' l'' _ IH1 _ IH2]; simpl.
  - constructor.
  - destruct (f x); [now constructor | exact IH].
  - destruct (f x), (f y); try reflexivity. apply perm_swap.
  - now transitivity (List.filter f l').
Qed.

Lemma getWorstPredictedTracts_unfold
    (predictions : gmap CacheKey Prediction) (tracts : list Properties) (years : Q) :
  getWorstPredictedTracts predictions tracts years
  = (List.filter (fun p => needsAction (snd p))
       (sortBy compareWorst
          (combine tracts
             (fst (predictAll predictions
                     (map (fun tract => (tract, years)) tracts))))),
     snd (predictAll predictions (map (fun tract => (tract, years)) tracts))).
Proof.
  unfold getWorstPredictedTracts.
  now destruct (predictAll predictions (map (fun tract => (tract, years)) tracts)).
Qed.

(** X21.  [getWorstPredictedTracts] returns exactly the tracts whose
    prediction needs action, each once and with the prediction it was
    given, in the order of the comparator: the more severe risk first
    and, within one risk level, the lower predicted score first. *)
Theorem getWorstPredictedTracts_sorted_filter
    (predictions : gmap CacheKey Prediction) (tracts : list Properties) (years : Q) :
  List.Forall (fun p => needsAction (snd p) = true)
    (fst (getWorstPredictedTracts predictions tracts years))
  /\ StronglySorted Props.worstFirst
       (fst (getWorstPredictedTracts predictions tracts years))
  /\ Permutation
       (fst (getWorstPredictedTracts predictions tracts years))
       (List.filter (fun p => needsAction (snd p))
          (combine tracts
             (fst (predictAll predictions
                     (map (fun tract => (tract, years)) tracts)))))
  /\ (forall a b, Props.worstFirst a b
        <-> riskOrder (riskLevel (snd a)) < riskOrder (riskLevel (snd b))
            \/ (riskOrder (riskLevel (snd a)) == riskOrder (riskLevel (snd b))
                /\ predictedScore (snd a) <= predictedScore (snd b))).
Proof.
  rewrite getWorstPredictedTracts_unfold. cbn [fst].
  split; [| split; [| split]].
  - apply List.Forall_forall. intros p Hp.
    apply List.filter_In in Hp. apply Hp.
  - apply filter_sorted.
    apply (sortBy_sorted compareWorst worstFirst_total worstFirst_trans).
  - apply filter_Permutation, sortBy_Permutation.
  - intros a b. apply compareWorst_spec.
Qed.

End WorstTractsExtras.

Section SonomaRegionExtras.

Import SimpleAIPredictor.

Lemma sonoma_region_factors (tract : Properties) :
  Props.inSonomaRegion tract ->
  calculateTrend tract = at_risk
  /\ getRegionalTrendFactor tract = -0.5
  /\ getUrbanPressureFactor tract = -0.3.
Proof.
  intros [[Hlat0 Hlat1] [Hlon0 Hlon1]].
  unfold calculateTrend, getRegionalTrendFactor, getUrbanPressureFactor,
    isUrbanArea, isProtectedArea, isSuburban, isCoastal.
  cbv zeta. decide_boxes. cbn [orb].
  assert (Hc : (JS.Math_abs (lon tract + 122) <? 5) = true).
  { destruct (lt_spec (JS.Math_abs (lon tract + 122)) 5) as [_ | Hn];
      [reflexivity |].
    exfalso. apply Hn. unfold JS.Math_abs. js_case; lra. }
  rewrite Hc, orb_true_r. cbn [orb]. repeat split.
Qed.

Lemma newPrediction_sonoma (tract : Properties) (years : Q) :
  Spec.valid_call (tract, years) /\ Props.inSonomaRegion tract ->
  needsAction (newPrediction tract years) = true
  /\ annualDecline (newPrediction tract years) == -1.8
  /\ trend (newPrediction tract years) = at_risk.
Proof.
  intros [Hcall Hregion].
  destruct (sonoma_region_factors tract Hregion) as (Ht & Hr & Hu).
  assert (Hd : calculateAnnualDecline (calculateTrend tract)
                 (getRegionalTrendFactor tract) (getUrbanPressureFactor tract)
               == -1.8).
  { rewrite Ht, Hr, Hu. reflexivity. }
  unfold newPrediction. cbn [needsAction annualDecline trend riskLevel].
  split; [| split; [exact Hd | exact Ht]].
  assert (Hrisk :
    calculateRiskLevel (or_default (ecoScore tract) 50)
      (projectScore tract years) years = critical
    \/ calculateRiskLevel (or_default (ecoScore tract) 50)
         (projectScore tract years) years = high).
  { apply calculateRiskLevel_cases.
    destruct (newPrediction_risk tract years 1.5 Hcall) as [H | H];
      [rewrite Hd; reflexivity | discriminate | | now right].
    left. destruct (lt_spec (projectScore tract years) 30); [| discriminate].
    destruct (lt_spec (projectScore tract years) 50); [reflexivity |].
    exfalso. lra. }
  destruct Hrisk as [-> | ->]; reflexivity.
Qed.

Lemma map_fst_combine {A B : Type} (l : list A) (l' : list B) :
  length l = length l' -> map fst (combine l l') = l.
Proof.
  revert l'. induction l as [| x rest IH]; intros [| y rest'] Hlen;
    try discriminate; [reflexivity |].
  simpl. f_equal. apply IH. now injection Hlen.
Qed.

Lemma Forall_combine_snd {A B : Type} (P : B -> Prop) (l : list A) (l' : list B) :
  List.Forall P l' -> List.Forall (fun p => P (snd p)) (combine l l').
Proof.
  intros H. rewrite List.Forall_forall in *. intros [a b] Hin.
  apply in_combine_r in Hin. now apply H.
Qed.

Lemma filter_all {A : Type} (f : A -> bool) (l : list A) :
  List.Forall (fun x => f x = true) l -> List.filter f l = l.
Proof.
  induction 1 as [| x rest Hx _ IH]; simpl; [reflexivity |].
  now rewrite Hx, IH.
Qed.

Lemma sonoma_run (tracts : list Properties) (years : Q) :
  List.Forall Props.inSonomaRegion tracts ->
  List.Forall (fun tract => Spec.valid_call (tract, years)) tracts ->
  List.Forall
    (fun p => needsAction p = true /\ annualDecline p == -1.8 /\ trend p = at_risk)
    (fst (predictAll ∅ (map (fun tract => (tract, years)) tracts))).
Proof.
  intros Hregion Hvalid.
  apply (predictAll_invariant
           (fun p => needsAction p = true /\ annualDecline p == -1.8
                     /\ trend p = at_risk)
           (fun c => Spec.valid_call c /\ Props.inSonomaRegion (fst c))).
  - intros tract yrs. apply newPrediction_sonoma.
  - apply map_Forall_empty.
  - apply List.Forall_map. rewrite List.Forall_forall in *.
    intros tract Hin. split; [now apply Hvalid | now apply Hregion].
Qed.

Lemma sonoma_all_returned (tracts : list Properties) (years : Q) :
  List.Forall Props.inSonomaRegion tracts ->
  List.Forall (fun tract => Spec.valid_call (tract, years)) tracts ->
  Permutation (map fst (fst (getWorstPredictedTracts ∅ tracts years))) tracts
  /\ List.Forall
       (fun p => annualDecline (snd p) == -1.8 /\ trend (snd p) = at_risk)
       (fst (getWorstPredictedTracts ∅ tracts years)).
Proof.
  intros Hregion Hvalid.
  pose proof (sonoma_run tracts years Hregion Hvalid) as Hrun.
  rewrite getWorstPredictedTracts_unfold. cbn [fst].
  set (results := fst (predictAll ∅ (map (fun tract => (tract, years)) tracts))) in *.
  assert (Hlen : length tracts = length results).
  { unfold results. now rewrite predictAll_length, length_map. }
  assert (Hall : List.Forall
            (fun p => needsAction (snd p) = true
                      /\ annualDecline (snd p) == -1.8 /\ trend (snd p) = at_risk)
            (sortBy compareWorst (combine tracts results))).
  { apply (Forall_combine_snd _ tracts) in Hrun.
    rewrite List.Forall_forall in *. intros p Hp. apply Hrun.
    now apply (Permutation_in _ (sortBy_Permutation compareWorst _)). }
  rewrite filter_all.
  - split.
    + rewrite (sortBy_Permutation compareWorst). now rewrite map_fst_combine.
    + eapply List.Forall_impl; [| exact Hall].
      intros p (H1 & H2 & H3). split; assumption.
  - eapply List.Forall_impl; [| exact Hall].
    intros p (H1 & H2 & H3). exact H1.
Qed.

(** X22.  Over the Sonoma County test region (latitude 38 to 39, longitude
    -124 to -122) a fresh predictor flags every tract: whatever the current
    scores in [0, 100] and for any horizon of at least one year,
    [getWorstPredictedTracts] returns all the tracts it was given, each
    with trend [at_risk] and an annual decline of -1.8. *)
Theorem sonoma_region_all_flagged (tracts : list Properties) (years : Q) :
  List.Forall Props.inSonomaRegion tracts ->
  List.Forall (fun tract => Spec.valid_call (tract, years)) tracts ->
  Permutation (map fst (fst (getWorstPredictedTracts ∅ tracts years))) tracts
  /\ List.Forall
       (fun p => annualDecline (snd p) == -1.8 /\ trend (snd p) = at_risk)
       (fst (getWorstPredictedTracts ∅ tracts years)).
Proof. apply sonoma_all_returned. Qed.

Lemma sonoma_region_all_flagged_witness :
  Permutation
    (map fst
       (fst (getWorstPredictedTracts ∅
               [mkProperties 38.225 (-123.475) (Some 55) None None;
                mkProperties 38.775 (-122.525) (Some 59) None None] 15)))
    [mkProperties 38.225 (-123.475) (Some 55) None None;
     mkProperties 38.775 (-122.525) (Some 59) None None].
Proof.
  apply (sonoma_region_all_flagged
           [mkProperties 38.225 (-123.475) (Some 55) None None;
            mkProperties 38.775 (-122.525) (Some 59) None None] 15).
  - repeat constructor; discriminate.
  - repeat constructor; discriminate.
Defined.

(** X23.  The whole pipeline on the test region: tracts located in the
    Sonoma box, scored by [processTracts] with any random source and
    handed to a fresh predictor with a horizon of at least one year, are
    all returned by [getWorstPredictedTracts]. *)
Theorem sonoma_pipeline_flags_every_tract
    (random : nat -> Q) (n : nat)
    (locations : list EcoPercentileCalculator.Location) (years : Q) :
  1 <= years ->
  List.Forall
    (fun l => 38 <= EcoPercentileCalculator.lat l <= 39
              /\ -124 <= EcoPercentileCalculator.lon l <= -122)
    locations ->
  length
    (fst (getWorstPredictedTracts ∅
            (map Props.toProperties
               (fst (fst (EcoPercentileCalculator.processTracts
                            random n locations))))
            years))
  = length locations.
Proof.
  intros Hy Hloc.
  pose proof (scoreTracts_well random locations n) as (Hmap & Hwell & _).
  unfold EcoPercentileCalculator.processTracts.
  destruct (EcoPercentileCalculator.scoreTracts random n locations)
    as [scored n'].
  cbn [fst snd] in *.
  set (tracts := map Props.toProperties
                   (map (EcoPercentileCalculator.setPercentile
                           (map EcoPercentileCalculator.ecoScore scored))
                      scored)).
  assert (Hlen : length tracts = length locations).
  { unfold tracts. rewrite !length_map. rewrite <- Hmap. now rewrite length_map. }
  assert (Hregion : List.Forall Props.inSonomaRegion tracts).
  { unfold tracts. rewrite List.map_map. apply List.Forall_map.
    rewrite List.Forall_forall in *. intros t Ht.
    unfold Props.inSonomaRegion, Props.toProperties,
      EcoPercentileCalculator.setPercentile.
    cbn [lat lon EcoPercentileCalculator.location].
    apply Hloc. rewrite <- Hmap. now apply in_map. }
  assert (Hvalid : List.Forall (fun tract => Spec.valid_call (tract, years)) tracts).
  { unfold tracts. rewrite List.map_map. apply List.Forall_map.
    rewrite List.Forall_forall in *. intros t Ht.
    destruct (Hwell t Ht) as (_ & _ & [He0 He1] & _).
    unfold Spec.valid_call, Props.toProperties,
      EcoPercentileCalculator.setPercentile.
    cbn [fst snd ecoScore EcoPercentileCalculator.ecoScore or_default].
    split; [| exact Hy].
    destruct (strict_eq_spec (EcoPercentileCalculator.ecoScore t) 0);
      split; lra. }
  destruct (sonoma_all_returned tracts years Hregion Hvalid) as [Hperm _].
  apply Permutation_length in Hperm. rewrite length_map in Hperm.
  now rewrite Hperm.
Qed.

Lemma sonoma_pipeline_flags_every_tract_witness :
  length
    (fst (getWorstPredictedTracts ∅
            (map Props.toProperties
               (fst (fst (EcoPercentileCalculator.processTracts
                            (fun _ => 0.5) 0
                            [EcoPercentileCalculator.mkLocation 38.225 (-123.475);
                             EcoPercentileCalculator.mkLocation 38.775 (-122.525)]))))
            15))
  = 2%nat.
Proof.
  apply (sonoma_pipeline_flags_every_tract (fun _ => 0.5) 0
           [EcoPercentileCalculator.mkLocation 38.225 (-123.475);
            EcoPercentileCalculator.mkLocation 38.775 (-122.525)] 15).
  - discriminate.
  - repeat constructor; discriminate.
Defined.

End SonomaRegionExtras.

(* ===================================================================== *)
(** ** Further properties of the two analyzers *)
(* ===================================================================== *)

Section AnalyzerExtras.

Lemma Math_floor_draw (random : Q) (k : Z) :
  Props.drawn random -> (0 < k)%Z ->
  exists z : Z,
    JS.Math_floor (random * inject_Z k) = inject_Z z /\ (0 <= z <= k - 1)%Z.
Proof.
  intros [Hlo Hhi] Hk. exists (Qfloor (random * inject_Z k)).
  split; [reflexivity |].
  assert (HK : 0 < inject_Z k).
  { change 0 with (inject_Z 0). now rewrite <- Zlt_Qlt. }
  pose proof (Qfloor_le (random * inject_Z k)) as Hle.
  pose proof (Qlt_floor (random * inject_Z k)) as Hlt.
  rewrite inject_Z_plus in Hlt. change (inject_Z 1) with 1 in Hlt.
  assert (H0 : 0 <= random * inject_Z k) by nra.
  assert (H1 : random * inject_Z k < inject_Z k) by nra.
  set (z := Qfloor (random * inject_Z k)) in *.
  assert (Hz0 : inject_Z (-1) < inject_Z z).
  { change (inject_Z (-1)) with (-1). lra. }
  assert (Hz1 : inject_Z z < inject_Z k) by lra.
  rewrite <- Zlt_Qlt in Hz0, Hz1. lia.
Qed.

(** X24.  For every draw [estimateParks] is a whole number, between 2 and
    6 for a location in an urban box and between 1 and 3 elsewhere. *)
Theorem estimateParks_range (lat lon random : Q) :
  Props.drawn random ->
  exists z : Z,
    GreenspaceAnalyzer.estimateParks lat lon random == inject_Z z
    /\ (GreenspaceAnalyzer.isUrbanArea lat lon = true -> (2 <= z <= 6)%Z)
    /\ (GreenspaceAnalyzer.isUrbanArea lat lon = false -> (1 <= z <= 3)%Z).
Proof.
  intros Hr. unfold GreenspaceAnalyzer.estimateParks.
  destruct (GreenspaceAnalyzer.isUrbanArea lat lon).
  - destruct (Math_floor_draw random 5 Hr ltac:(lia)) as (z & Hz & Hb).
    change (inject_Z 5) with 5 in Hz. rewrite Hz. exists (z + 2)%Z.
    split; [rewrite inject_Z_plus; reflexivity |].
    split; [intros _; lia | discriminate].
  - destruct (Math_floor_draw random 3 Hr ltac:(lia)) as (z & Hz & Hb).
    change (inject_Z 3) with 3 in Hz. rewrite Hz. exists (z + 1)%Z.
    split; [rewrite inject_Z_plus; reflexivity |].
    split; [discriminate | intros _; lia].
Qed.

Lemma estimateParks_range_witness :
  exists z : Z,
    GreenspaceAnalyzer.estimateParks 40.7 (-73.9) 0.99 == inject_Z z
    /\ (GreenspaceAnalyzer.isUrbanArea 40.7 (-73.9) = true -> (2 <= z <= 6)%Z)
    /\ (GreenspaceAnalyzer.isUrbanArea 40.7 (-73.9) = false -> (1 <= z <= 3)%Z).
Proof.
  apply (estimateParks_range 40.7 (-73.9) 0.99).
  split; [discriminate | reflexivity].
Defined.

(** X25.  The tree estimate never exceeds the reported coverage: for a
    coverage that is not negative and every draw, [estimateTreeCoverage]
    is at least 0 and at most the coverage rounded by [Math.round]. *)
Theorem estimateTreeCoverage_bounded (totalCoverage random : Q) :
  0 <= totalCoverage -> Props.drawn random ->
  0 <= GreenspaceAnalyzer.estimateTreeCoverage totalCoverage random
  /\ GreenspaceAnalyzer.estimateTreeCoverage totalCoverage random
     <= JS.Math_round totalCoverage.
Proof.
  intros Hc [Hlo Hhi]. unfold GreenspaceAnalyzer.estimateTreeCoverage.
  split.
  - change 0 with (JS.Math_round 0) at 1. apply Math_round_mono. nra.
  - apply Math_round_mono. nra.
Qed.

Lemma estimateTreeCoverage_bounded_witness :
  0 <= GreenspaceAnalyzer.estimateTreeCoverage 0.9 0.9
  /\ GreenspaceAnalyzer.estimateTreeCoverage 0.9 0.9 <= JS.Math_round 0.9.
Proof.
  apply (estimateTreeCoverage_bounded 0.9 0.9);
    [discriminate | split; [discriminate | reflexivity]].
Defined.

(** X26.  For a quality index in [0, 100] the four pollutant levels are
    whole numbers within their shares (at most 30, 40, 20 and 10), and
    their sum differs from [100 - qualityIndex] by at most 2. *)
Theorem estimatePollutants_shares (qualityIndex : Q) :
  0 <= qualityIndex <= 100 ->
  (0 <= WaterQualityAnalyzer.nutrients
          (WaterQualityAnalyzer.estimatePollutants qualityIndex) <= 30
   /\ 0 <= WaterQualityAnalyzer.sediments
             (WaterQualityAnalyzer.estimatePollutants qualityIndex) <= 40
   /\ 0 <= WaterQualityAnalyzer.organic
             (WaterQualityAnalyzer.estimatePollutants qualityIndex) <= 20
   /\ 0 <= WaterQualityAnalyzer.chemicals
             (WaterQualityAnalyzer.estimatePollutants qualityIndex) <= 10)
  /\ (100 - qualityIndex) - 2
     < WaterQualityAnalyzer.nutrients
         (WaterQualityAnalyzer.estimatePollutants qualityIndex)
       + WaterQualityAnalyzer.sediments
           (WaterQualityAnalyzer.estimatePollutants qualityIndex)
       + WaterQualityAnalyzer.organic
           (WaterQualityAnalyzer.estimatePollutants qualityIndex)
       + WaterQualityAnalyzer.chemicals
           (WaterQualityAnalyzer.estimatePollutants qualityIndex)
     <= (100 - qualityIndex) + 2.
Proof.
  intros [H0 H1]. unfold WaterQualityAnalyzer.estimatePollutants.
  cbn [WaterQualityAnalyzer.nutrients WaterQualityAnalyzer.sediments
       WaterQualityAnalyzer.organic WaterQualityAnalyzer.chemicals].
  split.
  - split; [| split; [| split]].
    + apply (Math_round_range 0 30). split; [change (inject_Z 0) with 0; lra |].
      change (inject_Z 30) with 30. lra.
    + apply (Math_round_range 0 40). split; [change (inject_Z 0) with 0; lra |].
      change (inject_Z 40) with 40. lra.
    + apply (Math_round_range 0 20). split; [change (inject_Z 0) with 0; lra |].
      change (inject_Z 20) with 20. lra.
    + apply (Math_round_range 0 10). split; [change (inject_Z 0) with 0; lra |].
      change (inject_Z 10) with 10. lra.
  - pose proof (Math_round_bounds ((100 - qualityIndex) * 0.3)) as [A1 A2].
    pose proof (Math_round_bounds ((100 - qualityIndex) * 0.4)) as [B1 B2].
    pose proof (Math_round_bounds ((100 - qualityIndex) * 0.2)) as [C1 C2].
    pose proof (Math_round_bounds ((100 - qualityIndex) * 0.1)) as [D1 D2].
    split; lra.
Qed.

Lemma estimatePollutants_shares_witness :
  0 <= WaterQualityAnalyzer.nutrients (WaterQualityAnalyzer.estimatePollutants 65)
    <= 30.
Proof.
  apply (estimatePollutants_shares 65). split; discriminate.
Defined.

Lemma le_iff (a b : Q) : (a <=? b) = true <-> a <= b.
Proof. destruct (le_spec a b); split; intros; auto; discriminate. Qed.

Lemma Math_abs_lt_iff (x c : Q) :
  (JS.Math_abs x <? c) = true <-> - c < x /\ x < c.
Proof.
  unfold JS.Math_abs.
  destruct (lt_spec x 0); js_case; split; intros H;
    try reflexivity; try discriminate H; try (split; lra);
    exfalso; destruct H; lra.
Qed.

(** X27.  The water-quality analyzer has its own notion of coast: it holds
    exactly for latitudes 25 to 50 with the longitude within 5 degrees of
    -95 or of -80.  On the West Coast, where the longitude is within 5
    degrees of -122, the three other coastal predicates hold and this one
    does not. *)
Theorem analyzer_coast_differs (lat lon : Q) :
  (WaterQualityAnalyzer.isCoastalArea lat lon = true
   <-> (25 <= lat <= 50)
       /\ ((-100 < lon /\ lon < -90) \/ (-85 < lon /\ lon < -75)))
  /\ (-127 < lon /\ lon < -117 ->
      EcoPercentileCalculator.isCoastalArea lat lon = true
      /\ SimpleAIPredictor.isCoastal lat lon = true
      /\ SpectralIndicesCalculator.isCoastal lat lon = true
      /\ WaterQualityAnalyzer.isCoastalArea lat lon = false).
Proof.
  split.
  - unfold WaterQualityAnalyzer.isCoastalArea. cbn [existsb fst snd].
    rewrite orb_false_r, !andb_true_iff, orb_true_iff, !Math_abs_lt_iff.
    unfold JS.ge. rewrite !le_iff. split.
    + intros ((((H1 & H2) & H3) & H4) & [[H5 H6] | [H5 H6]]).
      * split; [split; assumption | left; split; lra].
      * split; [split; assumption | right; split; lra].
    + intros [[H1 H2] [[H3 H4] | [H3 H4]]].
      * split; [repeat split; try assumption; lra | left; split; lra].
      * split; [repeat split; try assumption; lra | right; split; lra].
  - intros [Hw He].
    assert (Habs : (JS.Math_abs (lon + 122) <? 5) = true).
    { destruct (lt_spec (JS.Math_abs (lon + 122)) 5) as [_ | Hn];
        [reflexivity |].
      exfalso. apply Hn. unfold JS.Math_abs. js_case; lra. }
    unfold EcoPercentileCalculator.isCoastalArea, SimpleAIPredictor.isCoastal,
      SpectralIndicesCalculator.isCoastal.
    rewrite Habs, orb_true_r. cbn [orb].
    repeat (split; [reflexivity |]).
    unfold WaterQualityAnalyzer.isCoastalArea. cbn [existsb fst snd].
    rewrite orb_false_r.
    assert (H95 : (JS.Math_abs (lon + 95) <? 5) = false).
    { destruct (lt_spec (JS.Math_abs (lon + 95)) 5) as [Hy | _];
        [| reflexivity].
      exfalso. revert Hy. unfold JS.Math_abs. js_case; lra. }
    assert (H80 : (JS.Math_abs (lon + 80) <? 5) = false).
    { destruct (lt_spec (JS.Math_abs (lon + 80)) 5) as [Hy | _];
        [| reflexivity].
      exfalso. revert Hy. unfold JS.Math_abs. js_case; lra. }
    rewrite H95, H80. cbn [orb]. apply andb_false_r.
Qed.

Lemma slice_last6_app (old recent : list GreenspaceAnalyzer.HistoryEntry) :
  length recent = 6%nat ->
  GreenspaceAnalyzer.slice_last6 (old ++ recent) = recent.
Proof.
  intros Hlen. unfold GreenspaceAnalyzer.slice_last6.
  rewrite length_app, Hlen.
  replace (length old + 6 - 6)%nat with (length old + 0)%nat by lia.
  rewrite List.skipn_app, Nat.add_0_r.
  replace (length old - length old)%nat with 0%nat by lia.
  now rewrite List.skipn_all.
Qed.

(** X28.  The greenspace trend of a location with no history, or with
    fewer than two entries, is stable; with more history only the six most
    recent entries count. *)
Theorem greenspace_trend_recent
    (historicalData :
       gmap ((bool * Z) * (bool * Z)) (list GreenspaceAnalyzer.HistoryEntry))
    (lat lon : Q) :
  (historicalData !! GreenspaceAnalyzer.locationKey lat lon = None ->
   GreenspaceAnalyzer.calculateTrend historicalData lat lon
   = GreenspaceAnalyzer.coverage_stable)
  /\ (forall history,
        historicalData !! GreenspaceAnalyzer.locationKey lat lon = Some history ->
        (length history < 2)%nat ->
        GreenspaceAnalyzer.calculateTrend historicalData lat lon
        = GreenspaceAnalyzer.coverage_stable)
  /\ (forall old recent,
        length recent = 6%nat ->
        GreenspaceAnalyzer.calculateTrend
          (<[GreenspaceAnalyzer.locationKey lat lon := old ++ recent]> historicalData)
          lat lon
        = GreenspaceAnalyzer.calculateTrend
            (<[GreenspaceAnalyzer.locationKey lat lon := recent]> historicalData)
            lat lon).
Proof.
  split; [| split].
  - intros Hnone. unfold GreenspaceAnalyzer.calculateTrend. now rewrite Hnone.
  - intros history Hsome Hlen. unfold GreenspaceAnalyzer.calculateTrend.
    rewrite Hsome. cbv zeta.
    destruct (Nat.ltb_spec (length history) 2); [reflexivity | lia].
  - intros old recent Hlen. unfold GreenspaceAnalyzer.calculateTrend.
    rewrite !lookup_insert_eq. cbv zeta.
    rewrite slice_last6_app by exact Hlen.
    assert (Hrecent : GreenspaceAnalyzer.slice_last6 recent = recent).
    { apply (slice_last6_app [] recent Hlen). }
    rewrite Hrecent.
    destruct (Nat.ltb_spec (length (old ++ recent)) 2) as [H | _].
    + rewrite length_app in H. lia.
    + destruct (Nat.ltb_spec (length recent) 2) as [H | _]; [lia | reflexivity].
Qed.

End AnalyzerExtras.

Section ConversionExtras.

(** X29.  The index the Earth Engine service reports for a score is not
    the one the score converters would turn back into it: for a coverage in
    [0, 100], [ndviToGreenspace(greenspaceToNDVI(coverage))] is below 73,
    never more than the coverage and less than any positive one; for a
    quality in [0, 100], [ndwiToWaterQuality(waterQualityToNDWI(quality))]
    is at least 55. *)
Theorem service_indices_do_not_round_trip (coverage quality : Q) :
  0 <= coverage <= 100 -> 0 <= quality <= 100 ->
  SpectralIndicesCalculator.ndviToGreenspace
    (EEService.greenspaceToNDVI coverage) <= coverage
  /\ (0 < coverage ->
      SpectralIndicesCalculator.ndviToGreenspace
        (EEService.greenspaceToNDVI coverage) < coverage)
  /\ SpectralIndicesCalculator.ndviToGreenspace
       (EEService.greenspaceToNDVI coverage) < 73
  /\ 55 <= SpectralIndicesCalculator.ndwiToWaterQuality
             (EEService.waterQualityToNDWI quality).
Proof.
  intros [Hc0 Hc1] [Hq0 Hq1].
  unfold EEService.greenspaceToNDVI, EEService.waterQualityToNDWI.
  set (c := coverage / 100). set (q := quality / 100).
  assert (Hc : c * 100 == coverage) by (unfold c; field).
  assert (Hq : q * 100 == quality) by (unfold q; field).
  clearbody c q.
  unfold SpectralIndicesCalculator.ndviToGreenspace,
    SpectralIndicesCalculator.ndwiToWaterQuality.
  cbv zeta. unfold JS.gt, JS.Math_max, JS.Math_min.
  split; [| split; [intros Hpos | split]]; repeat js_case; lra.
Qed.

Lemma service_indices_do_not_round_trip_witness :
  SpectralIndicesCalculator.ndviToGreenspace (EEService.greenspaceToNDVI 40) < 40
  /\ 55 <= SpectralIndicesCalculator.ndwiToWaterQuality
             (EEService.waterQualityToNDWI 20).
Proof.
  assert (H40 : 0 <= 40 <= 100) by (split; discriminate).
  assert (H20 : 0 <= 20 <= 100) by (split; discriminate).
  split.
  - apply (proj1 (proj2 (service_indices_do_not_round_trip 40 20 H40 H20))).
    reflexivity.
  - apply (service_indices_do_not_round_trip 40 20 H40 H20).
Defined.

End ConversionExtras.
